(** * The CLI daemon of the border router host (src/host/posix/cli_daemon.cpp)

    A shallow embedding of [otbr::CliDaemon]: the object's three descriptors,
    the system calls it issues, and the control flow of its member functions,
    written as a state-and-abort computation over an abstract operating
    system.  The operating system and the command consumer are interfaces
    (type classes); every theorem holds for all of their implementations. *)

From Stdlib Require Import ZArith String Ascii Lia.
From Stdlib.Strings Require Import Byte.
From stdpp Require Import base tactics option list gmap.

Local Open Scope Z_scope.

(** ** Values of the C++ side *)

(** Modelled from the spec: the enumeration [otbrError] (common/types.hpp, not
    part of this unit), with the "invalid-state" and "OS-level error" results
    the spec speaks of: the four codes the unit names, and any other code a
    command consumer may hand back. *)
Inductive otbrError :=
| OTBR_ERROR_NONE
| OTBR_ERROR_ERRNO
| OTBR_ERROR_INVALID_ARGS
| OTBR_ERROR_INVALID_STATE
| OTBR_ERROR_OTHER (code : Z).

Definition otbrError_is_none (e : otbrError) : bool :=
  match e with OTBR_ERROR_NONE => true | _ => false end.

(** The block option handed to [SocketWithCloseExec]. *)
Inductive SocketBlockOption := kSocketBlock | kSocketNonBlock.

(** The three build variants of the [#ifndef __linux__] block in
    [InitializeSessionSocket]. *)
Inductive SigPipeSupport :=
| BuildLinux            (* __linux__ defined: the block is compiled out *)
| BuildHasSoNoSigPipe   (* not Linux, SO_NOSIGPIPE defined *)
| BuildNoSupport.       (* not Linux, no SO_NOSIGPIPE: only a #warning *)

(** What the unit takes from headers outside its own file. *)
Record Platform := {
  sun_path_size : nat;        (* sizeof(sockaddr_un::sun_path) *)
  kCliMaxLineLength : nat;    (* size of the read buffer in Process *)
  sigpipe_support : SigPipeSupport
}.

(** Header constants (Linux values; SOL_SOCKET and SO_NOSIGPIPE as on macOS,
    the only build that uses them).  No result below depends on the numbers. *)
Definition AF_UNIX : Z := 1.
Definition SOCK_STREAM : Z := 1.
Definition O_RDONLY : Z := 0.
Definition O_CREAT : Z := 64.
Definition O_CLOEXEC : Z := 524288.
Definition LOCK_EX : Z := 2.
Definition LOCK_NB : Z := 4.
Definition F_GETFD : Z := 1.
Definition F_SETFD : Z := 2.
Definition FD_CLOEXEC : Z := 1.
Definition SOL_SOCKET : Z := 65535.
Definition SO_NOSIGPIPE : Z := 4130.

Definition kDefaultNetIfName : string := "wpan0".
Definition kSocketBaseName : string := "/run/openthread-".
Definition kSocketSuffix : string := ".sock".
Definition kSocketLockSuffix : string := ".lock".

Definition kMaxSocketFilenameLength (P : Platform) : nat :=
  (sun_path_size P - 1)%nat.

(** [std::string::c_str] as a C function reads it: the bytes before the first
    NUL. *)
Fixpoint c_str (s : string) : string :=
  match s with
  | EmptyString => EmptyString
  | String c r => if Ascii.eqb c zero then EmptyString else String c (c_str r)
  end.

Fixpoint string_take (n : nat) (s : string) : string :=
  match n, s with
  | O, _ => EmptyString
  | S _, EmptyString => EmptyString
  | S m, String c r => String c (string_take m r)
  end.

(** [memset(&sockname, 0, ...)] then [strncpy(sun_path, src, n)]: the first
    [n] bytes of the C string, the rest of the field staying zero. *)
Definition strncpy_zeroed (src : string) (n : nat) : string :=
  string_take n (c_str src).

Definition string_empty (s : string) : bool :=
  match s with EmptyString => true | _ => false end.

(** [uint16_t aLength] receiving a [ssize_t]. *)
Definition to_uint16 (z : Z) : Z := z mod 65536.

(** ** The operating system *)

(** Modelled from the spec: [SocketWithCloseExec] (utils/socket_utils.hpp, not
    part of this unit) "allocates a non-blocking, close-on-exec domain stream
    socket"; it is taken as one call of the operating system that returns the
    descriptor or -1.  The other calls are those of POSIX. *)
Inductive syscall :=
| SocketWithCloseExec (aDomain aType aProtocol : Z) (aBlockOption : SocketBlockOption)
| sys_open (path : string) (flags mode : Z)
| sys_flock (fd operation : Z)
| sys_unlink (path : string)
| sys_bind (fd family : Z) (sun_path : string)   (* addrlen is sizeof(sockaddr_un) *)
| sys_listen (fd backlog : Z)
| sys_accept (fd : Z)
| sys_fcntl (fd cmd arg : Z)
| sys_setsockopt (fd level optname optval : Z)
| sys_close (fd : Z).

(** A call either yields a value or fails with an error number; the C return
    value of a failed call is -1. *)
Inductive sysret := SysOk (v : Z) | SysErr (e : Z).

Definition rv (r : sysret) : Z :=
  match r with SysOk v => v | SysErr _ => -1 end.

(** [read] fails with an error number or yields the bytes it stored. *)
Inductive readret := ReadErr (e : Z) | ReadData (bs : list byte).

(** The operating system: it answers each call and moves to a new state of
    its own. *)
Class Kernel (K : Type) := {
  ksys : syscall -> K -> sysret * K;
  kread : Z -> nat -> K -> readret * K
}.

(** The command consumer, [CliDaemon::Dependencies]: one virtual operation. *)
Class Dependencies (D : Type) := {
  InputCommandLine : list byte -> D -> otbrError * D
}.

(** The base class implementation ignores its input. *)
#[export] Instance Dependencies_default : Dependencies unit := {
  InputCommandLine _ d := (OTBR_ERROR_NONE, d)
}.

(** ** The readiness sets *)

Definition fd_set := gset Z.

(** Modelled from the spec: [MainloopContext] (not part of this unit), "which
    descriptors are currently readable/erroring"; the unit reads its
    [mReadFdSet] and [mErrorFdSet]. *)
Record MainloopContext := {
  mReadFdSet : fd_set;
  mErrorFdSet : fd_set
}.

Definition FD_ISSET (fd : Z) (s : fd_set) : bool := bool_decide (fd ∈ s).

(** ** The object and the process around it *)

Record CliDaemon := {
  mListenSocket : Z;
  mDaemonLock : Z;
  mSessionSocket : Z
}.

(** The constructor. *)
Definition CliDaemon_new : CliDaemon :=
  {| mListenSocket := -1; mDaemonLock := -1; mSessionSocket := -1 |}.

Inductive member := MListenSocket | MDaemonLock | MSessionSocket.

Inductive logarg :=
| ArgNone
| ArgErrno (e : Z)              (* strerror(errno) *)
| ArgError (e : otbrError).     (* otbrErrorString(error) *)

Inductive loglevel := LogInfo | LogWarning.

(** What the process does, in order: system calls with their results, reads,
    stores to the object's members, log lines and calls of the consumer. *)
Inductive event :=
| EvSys (c : syscall) (r : sysret)
| EvRead (fd : Z) (count : nat) (r : readret)
| EvStore (m : member) (v : Z)
| EvLog (l : loglevel) (fmt : string) (a : logarg)
| EvInput (buf : list byte) (r : otbrError).

Record state (K D : Type) := {
  kernel : K;
  deps : D;
  errno : Z;
  trace : list event;
  self : CliDaemon
}.
Arguments kernel {K D} _.
Arguments deps {K D} _.
Arguments errno {K D} _.
Arguments trace {K D} _.
Arguments self {K D} _.

(** How a computation ends: it returns, or [VerifyOrDie] ends the process. *)
Inductive outcome (S A : Type) :=
| Ret (a : A) (s : S)
| Died (why : logarg) (s : S).
Arguments Ret {S A} _ _.
Arguments Died {S A} _ _.

(** The state a computation ends in. *)
Definition final {S A} (o : outcome S A) : S :=
  match o with Ret _ s => s | Died _ s => s end.

(** A computation over a state [S] returns, or the process is terminated. *)
Definition M (S A : Type) : Type := S -> outcome S A.

Definition ret {S A} (a : A) : M S A := fun s => Ret a s.

Definition bind {S A B} (m : M S A) (f : A -> M S B) : M S B :=
  fun s => match m s with
           | Ret a s' => f a s'
           | Died w s' => Died w s'
           end.

Declare Scope daemon_scope.
Delimit Scope daemon_scope with daemon.
Notation "x <- m ;; k" := (bind m (fun x => k))
  (at level 100, m at next level, right associativity) : daemon_scope.
Notation "m ;;; k" := (bind m (fun _ => k))
  (at level 100, right associativity) : daemon_scope.
(** The macro [VerifyOrExit(cond, action)] (common/code_utils.hpp): go on
    when [cond] holds, otherwise run the action and jump to the [exit] label;
    [e] is the action followed by the code behind the label. *)
Notation "'VerifyOrExit' c 'orelse' e ;; k" := (if c then k else e)
  (at level 100, c at level 0, e at next level, right associativity, only parsing)
  : daemon_scope.

Definition Zne (a b : Z) : bool := negb (a =? b).
Local Open Scope daemon_scope.

Section Daemon.
Context {K D : Type} `{!Kernel K} `{!Dependencies D} (P : Platform).

Notation St := (state K D).
Notation M := (M (state K D)).

Definition emit (e : event) (s : St) : St :=
  {| kernel := kernel s; deps := deps s; errno := errno s;
     trace := trace s ++ [e]; self := self s |}.

Definition gets {A} (f : St -> A) : M A := fun s => Ret (f s) s.

(** The state right after a system call answered [r] and left the kernel in
    [k']: [errno] is set on failure, the call is recorded. *)
Definition after_sys (s : St) (c : syscall) (r : sysret) (k' : K) : St :=
  {| kernel := k'; deps := deps s;
     errno := match r with SysErr e => e | SysOk _ => errno s end;
     trace := trace s ++ [EvSys c r]; self := self s |}.

(** One system call: the kernel answers and the C return value is handed
    back. *)
Definition sys (c : syscall) : M Z := fun s =>
  let '(r, k') := ksys c (kernel s) in Ret (rv r) (after_sys s c r k').

(** [read(fd, buffer, count)]: at most [count] bytes are stored. *)
Definition clip (count : nat) (r : readret) : readret :=
  match r with
  | ReadErr e => ReadErr e
  | ReadData bs => ReadData (take count bs)
  end.

Definition after_read (s : St) (fd : Z) (count : nat) (r : readret) (k' : K) : St :=
  {| kernel := k'; deps := deps s;
     errno := match r with ReadErr e => e | ReadData _ => errno s end;
     trace := trace s ++ [EvRead fd count r]; self := self s |}.

(** The value of [received] and the bytes now in the buffer. *)
Definition sys_read (fd : Z) (count : nat) : M (Z * list byte) := fun s =>
  let '(r0, k') := kread fd count (kernel s) in
  let r := clip count r0 in
  Ret (match r with
       | ReadErr _ => (-1, [])
       | ReadData bs => (Z.of_nat (length bs), bs)
       end)
      (after_read s fd count r k').

Definition set_member (d : CliDaemon) (m : member) (v : Z) : CliDaemon :=
  match m with
  | MListenSocket =>
      {| mListenSocket := v; mDaemonLock := mDaemonLock d;
         mSessionSocket := mSessionSocket d |}
  | MDaemonLock =>
      {| mListenSocket := mListenSocket d; mDaemonLock := v;
         mSessionSocket := mSessionSocket d |}
  | MSessionSocket =>
      {| mListenSocket := mListenSocket d; mDaemonLock := mDaemonLock d;
         mSessionSocket := v |}
  end.

Definition after_store (s : St) (m : member) (v : Z) : St :=
  {| kernel := kernel s; deps := deps s; errno := errno s;
     trace := trace s ++ [EvStore m v]; self := set_member (self s) m v |}.

(** An assignment to a member of the object. *)
Definition store (m : member) (v : Z) : M unit :=
  fun s => Ret tt (after_store s m v).

(** [otbrLogInfo] and [otbrLogWarning] (common/logging.hpp): a line of the
    log. *)
Definition log (l : loglevel) (fmt : string) (a : logarg) : M unit :=
  fun s => Ret tt (emit (EvLog l fmt a) s).

Definition otbrLogInfo := log LogInfo.
Definition otbrLogWarning := log LogWarning.

Definition after_input (s : St) (seen : list byte) (e : otbrError) (d' : D) : St :=
  {| kernel := kernel s; deps := d'; errno := errno s;
     trace := trace s ++ [EvInput seen e]; self := self s |}.

(** [mDeps.InputCommandLine(aBuf, aLength)]: the consumer sees the first
    [aLength] bytes of the buffer. *)
Definition input (buf : list byte) (aLength : Z) : M otbrError := fun s =>
  let seen := take (Z.to_nat aLength) buf in
  let '(e, d') := InputCommandLine seen (deps s) in
  Ret e (after_input s seen e d').

(** Modelled from the spec: the macro [VerifyOrDie(cond, message)]
    (common/code_utils.hpp, not part of this unit), "unrecoverable (process
    terminates)"; the message is evaluated only on failure. *)
Definition VerifyOrDie (cond : bool) (why : St -> logarg) : M unit :=
  fun s => if cond then Ret tt s else Died (why s) s.

Definition strerror_errno : St -> logarg := fun s => ArgErrno (errno s).

(** *** std::string CliDaemon::GetSocketFilename(aNetIfName, aSuffix) *)
Definition GetSocketFilename (aNetIfName aSuffix : string) : M string :=
  let netIfName :=
    if string_empty aNetIfName then kDefaultNetIfName else aNetIfName in
  let fileName := (kSocketBaseName ++ netIfName ++ aSuffix)%string in
  VerifyOrDie (String.length fileName <=? kMaxSocketFilenameLength P)%nat
              (fun _ => ArgError OTBR_ERROR_INVALID_ARGS) ;;;
  ret fileName.

(** *** otbrError CliDaemon::CreateListenSocket(aNetIfName) *)
Definition CreateListenSocket (aNetIfName : string) : M otbrError :=
  fd <- sys (SocketWithCloseExec AF_UNIX SOCK_STREAM 0 kSocketNonBlock) ;;
  store MListenSocket fd ;;;
  VerifyOrExit (Zne fd (-1)) orelse ret OTBR_ERROR_ERRNO ;;
  lockfile <- GetSocketFilename aNetIfName kSocketLockSuffix ;;
  lk <- sys (sys_open (c_str lockfile)
                      (Z.lor (Z.lor O_CREAT O_RDONLY) O_CLOEXEC) 384) ;;
  store MDaemonLock lk ;;;
  VerifyOrExit (Zne lk (-1)) orelse ret OTBR_ERROR_ERRNO ;;
  r <- sys (sys_flock lk (Z.lor LOCK_EX LOCK_NB)) ;;
  VerifyOrExit (Zne r (-1)) orelse ret OTBR_ERROR_ERRNO ;;
  socketfile <- GetSocketFilename aNetIfName kSocketSuffix ;;
  let sun_path := strncpy_zeroed socketfile (sun_path_size P - 1) in
  _ <- sys (sys_unlink sun_path) ;;
  l <- gets (fun s => mListenSocket (self s)) ;;
  r <- sys (sys_bind l AF_UNIX sun_path) ;;
  VerifyOrExit (Zne r (-1)) orelse ret OTBR_ERROR_ERRNO ;;
  ret OTBR_ERROR_NONE.

(** *** void CliDaemon::Clear(void) *)
Definition Clear : M unit :=
  s <- gets (fun st => mSessionSocket (self st)) ;;
  if Zne s (-1) then
    _ <- sys (sys_close s) ;;
    store MSessionSocket (-1)
  else ret tt.

(** The [#ifndef __linux__] block: [flag] goes in, the new [flag] comes out
    together with whether control falls through ([true]) or jumps to [exit]
    after closing the new descriptor ([false]). *)
Definition nosigpipe_block (newSessionSocket flag : Z) : M (bool * Z) :=
  match sigpipe_support P with
  | BuildHasSoNoSigPipe =>
      flag' <- sys (sys_setsockopt newSessionSocket SOL_SOCKET SO_NOSIGPIPE flag) ;;
      VerifyOrExit (Zne flag' (-1))
        orelse (_ <- sys (sys_close newSessionSocket) ;; ret (false, flag')) ;;
      ret (true, flag')
  | BuildLinux | BuildNoSupport => ret (true, flag)
  end.

(** *** void CliDaemon::InitializeSessionSocket(void)

    The body up to the [exit] label yields the value [flag] has when control
    reaches the label; the code behind the label then tests it. *)
Definition InitializeSessionSocket_body : M Z :=
  let flag := -1 in
  l <- gets (fun st => mListenSocket (self st)) ;;
  newSessionSocket <- sys (sys_accept l) ;;
  VerifyOrExit (Zne newSessionSocket (-1)) orelse ret flag ;;
  flag <- sys (sys_fcntl newSessionSocket F_GETFD 0) ;;
  VerifyOrExit (Zne flag (-1))
    orelse (_ <- sys (sys_close newSessionSocket) ;; ret flag) ;;
  let flag := Z.lor flag FD_CLOEXEC in
  flag <- sys (sys_fcntl newSessionSocket F_SETFD flag) ;;
  VerifyOrExit (Zne flag (-1))
    orelse (_ <- sys (sys_close newSessionSocket) ;; ret flag) ;;
  blk <- nosigpipe_block newSessionSocket flag ;;
  let '(go_on, flag) := blk in
  VerifyOrExit (go_on) orelse ret flag ;;
  Clear ;;;
  store MSessionSocket newSessionSocket ;;;
  otbrLogInfo "Session socket is ready" ArgNone ;;;
  ret flag.

Definition InitializeSessionSocket : M unit :=
  flag <- InitializeSessionSocket_body ;;
  (* exit: *)
  if flag =? -1 then
    e <- gets errno ;;
    otbrLogWarning "Failed to initialize session socket: %s" (ArgErrno e) ;;;
    Clear
  else ret tt.

(** *** otbrError CliDaemon::Init(aNetIfName) *)
Definition Init (aNetIfName : string) : M otbrError :=
  l <- gets (fun st => mListenSocket (self st)) ;;
  (* This allows implementing pseudo reset. *)
  VerifyOrExit (l =? -1) orelse ret OTBR_ERROR_INVALID_STATE ;;
  error <- CreateListenSocket aNetIfName ;;
  (* SuccessOrExit *)
  VerifyOrExit (otbrError_is_none error) orelse ret error ;;
  (* only accept 1 connection. *)
  l <- gets (fun st => mListenSocket (self st)) ;;
  r <- sys (sys_listen l 1) ;;
  VerifyOrExit (Zne r (-1)) orelse ret OTBR_ERROR_ERRNO ;;
  ret error.

(** *** void CliDaemon::Deinit(void) *)
Definition Deinit : M unit := Clear.

(** Modelled from the spec: [MainloopContext::AddFdToSet] (not part of this
    unit) "registers ... for read-and-error readiness"; with the two flags the
    unit passes, the descriptor enters the read set and the error set. *)
Definition AddFdToSet (fd : Z) (aContext : MainloopContext) : MainloopContext :=
  {| mReadFdSet := {[fd]} ∪ mReadFdSet aContext;
     mErrorFdSet := {[fd]} ∪ mErrorFdSet aContext |}.

(** *** void CliDaemon::UpdateFdSet(aContext) *)
Definition UpdateFdSet (d : CliDaemon) (aContext : MainloopContext) : MainloopContext :=
  let aContext :=
    if Zne (mListenSocket d) (-1) then AddFdToSet (mListenSocket d) aContext
    else aContext in
  if Zne (mSessionSocket d) (-1) then AddFdToSet (mSessionSocket d) aContext
  else aContext.

(** The readiness sets hold nothing but descriptors this object registered
    (a poll marks only descriptors it was asked about). *)
Definition within_registered (d : CliDaemon) (aContext : MainloopContext) : Prop :=
  let registered := UpdateFdSet d {| mReadFdSet := ∅; mErrorFdSet := ∅ |} in
  mReadFdSet aContext ⊆ mReadFdSet registered /\
  mErrorFdSet aContext ⊆ mErrorFdSet registered.

(** *** void CliDaemon::Process(aContext) *)
Definition Process (aContext : MainloopContext) : M unit :=
  l <- gets (fun st => mListenSocket (self st)) ;;
  VerifyOrExit (Zne l (-1)) orelse ret tt ;;
  VerifyOrDie (negb (FD_ISSET l (mErrorFdSet aContext))) strerror_errno ;;;
  (if FD_ISSET l (mReadFdSet aContext) then InitializeSessionSocket else ret tt) ;;;
  s <- gets (fun st => mSessionSocket (self st)) ;;
  VerifyOrExit (Zne s (-1)) orelse ret tt ;;
  if FD_ISSET s (mErrorFdSet aContext) then Clear
  else if FD_ISSET s (mReadFdSet aContext) then
    rd <- sys_read s (kCliMaxLineLength P) ;;
    let '(received, buffer) := rd in
    VerifyOrDie (Zne received (-1)) strerror_errno ;;;
    if received =? 0 then
      otbrLogInfo "Session socket closed by peer" ArgNone ;;;
      Clear
    else
      error <- input buffer (to_uint16 received) ;;
      if negb (otbrError_is_none error) then
        otbrLogWarning "Failed to input command line, error:%s" (ArgError error)
      else ret tt
  else ret tt.

End Daemon.

Arguments M : clear implicits.

(** ** A kernel that answers from a script

    The simplest operating system: the answers to the integer calls and to
    the reads are listed in advance and handed out in order.  It serves to run
    the daemon on concrete inputs. *)
Record Script := {
  answers : list sysret;
  read_answers : list readret
}.

Definition ENOSYS : Z := 38.

#[export] Instance Kernel_Script : Kernel Script := {
  ksys _ k :=
    match answers k with
    | r :: rs => (r, {| answers := rs; read_answers := read_answers k |})
    | [] => (SysErr ENOSYS, k)
    end;
  kread _ _ k :=
    match read_answers k with
    | r :: rs => (r, {| answers := answers k; read_answers := rs |})
    | [] => (ReadErr ENOSYS, k)
    end
}.

(** A fresh process: the object as its constructor leaves it. *)
Definition boot {K D} (k : K) (d : D) : state K D :=
  {| kernel := k; deps := d; errno := 0; trace := []; self := CliDaemon_new |}.

Definition linux : Platform :=
  {| sun_path_size := 108; kCliMaxLineLength := 640; sigpipe_support := BuildLinux |}.

(** The path [GetSocketFilename] builds for a name and a suffix. *)
Definition derived_path (aNetIfName aSuffix : string) : string :=
  (kSocketBaseName ++
   (if string_empty aNetIfName then kDefaultNetIfName else aNetIfName) ++
   aSuffix)%string.

(** The operations a caller can apply to the object, and runs of them. *)
Inductive op :=
| OpInit (aNetIfName : string)
| OpDeinit
| OpProcess (aContext : MainloopContext).

Section Runs.
Context {K D : Type} `{!Kernel K} `{!Dependencies D} (P : Platform).

Definition run_op (o : op) : M (state K D) unit :=
  match o with
  | OpInit n => _ <- Init P n ;; ret tt
  | OpDeinit => Deinit
  | OpProcess c => Process P c
  end.

(** The state in which [Process] turns to the session descriptor: the one it
    was called in, or, the listen descriptor being readable, the one
    [InitializeSessionSocket] leaves. *)
Definition accept_step (aContext : MainloopContext) (s : state K D) : state K D :=
  if FD_ISSET (mListenSocket (self s)) (mReadFdSet aContext)
  then final (InitializeSessionSocket P s)
  else s.

(** [Process] gets past its first two checks. *)
Definition entered (aContext : MainloopContext) (s : state K D) : Prop :=
  mListenSocket (self s) <> -1 /\
  FD_ISSET (mListenSocket (self s)) (mErrorFdSet aContext) = false.

(** The kernel completes an accept on [l]: it hands out descriptor [n] and
    lets the configuration calls that follow succeed, ending in [k']. *)
Definition accepts (k : K) (l n : Z) (k' : K) : Prop :=
  exists r1 k1 r2 k2 r3 k3,
    ksys (sys_accept l) k = (r1, k1) /\ rv r1 = n /\ n <> -1 /\
    ksys (sys_fcntl n F_GETFD 0) k1 = (r2, k2) /\ rv r2 <> -1 /\
    ksys (sys_fcntl n F_SETFD (Z.lor (rv r2) FD_CLOEXEC)) k2 = (r3, k3) /\
    rv r3 <> -1 /\
    match sigpipe_support P with
    | BuildHasSoNoSigPipe =>
        exists r4,
          ksys (sys_setsockopt n SOL_SOCKET SO_NOSIGPIPE (rv r3)) k3 = (r4, k') /\
          rv r4 <> -1
    | BuildLinux | BuildNoSupport => k' = k3
    end.

(** The kernel lets every call of [Init] for a name succeed ([unlink] may
    fail): the socket is [l], the lock file descriptor [lk]. *)
Definition serves_Init (aNetIfName : string) (k : K) (l lk : Z) (k' : K) : Prop :=
  let lockfile := c_str (derived_path aNetIfName kSocketLockSuffix) in
  let socketfile := c_str (derived_path aNetIfName kSocketSuffix) in
  exists r1 k1 r2 k2 r3 k3 r4 k4 r5 k5 r6,
    ksys (SocketWithCloseExec AF_UNIX SOCK_STREAM 0 kSocketNonBlock) k = (r1, k1) /\
    rv r1 = l /\ l <> -1 /\
    ksys (sys_open lockfile (Z.lor (Z.lor O_CREAT O_RDONLY) O_CLOEXEC) 384) k1
      = (r2, k2) /\
    rv r2 = lk /\ lk <> -1 /\
    ksys (sys_flock lk (Z.lor LOCK_EX LOCK_NB)) k2 = (r3, k3) /\ rv r3 <> -1 /\
    ksys (sys_unlink socketfile) k3 = (r4, k4) /\
    ksys (sys_bind l AF_UNIX socketfile) k4 = (r5, k5) /\ rv r5 <> -1 /\
    ksys (sys_listen l 1) k5 = (r6, k') /\ rv r6 <> -1.

(** A process goes on with the operating system as another process left it;
    what is its own (object, consumer, errno, history) is as it was. *)
Definition resume (k : K) (s : state K D) : state K D :=
  {| kernel := k; deps := deps s; errno := errno s; trace := trace s;
     self := self s |}.

(** A terminated process runs nothing more. *)
Fixpoint run_ops (os : list op) : M (state K D) unit :=
  match os with
  | [] => ret tt
  | o :: r => run_op o ;;; run_ops r
  end.

End Runs.

(** ** What a trace says about sessions and about forwarded input *)

(** The descriptors adopted as the session and not closed since. *)
Definition live_step (live : list Z) (e : event) : list Z :=
  match e with
  | EvStore MSessionSocket v => if v =? -1 then live else v :: live
  | EvSys (sys_close fd) _ => filter (fun x => x <> fd) live
  | _ => live
  end.

Definition live_sessions (tr : list event) : list Z := foldl live_step [] tr.


(** One more event is in order when it leaves at most one live session and,
    if it adopts a descriptor as the session, no session was live before. *)
Definition step_ok (live : list Z) (e : event) : Prop :=
  (length (live_step live e) <= 1)%nat /\
  match e with
  | EvStore MSessionSocket n => n <> -1 -> live = []
  | _ => True
  end.

Fixpoint steps_ok (live : list Z) (evs : list event) : Prop :=
  match evs with
  | [] => True
  | e :: r => step_ok live e /\ steps_ok (live_step live e) r
  end.

(** Between two operations the live sessions are what the object holds. *)
Definition sessions_consistent {K D} (s : state K D) : Prop :=
  steps_ok [] (trace s) /\
  live_sessions (trace s) =
    (if mSessionSocket (self s) =? -1 then [] else [mSessionSocket (self s)]).

(** The non-empty byte spans the reads delivered, and the spans handed to the
    consumer, both in order. *)
Fixpoint chunks_of (tr : list event) : list (list byte) :=
  match tr with
  | [] => []
  | EvRead _ _ (ReadData (b :: bs)) :: r => (b :: bs) :: chunks_of r
  | _ :: r => chunks_of r
  end.

Fixpoint inputs_of (tr : list event) : list (list byte) :=
  match tr with
  | [] => []
  | EvInput buf _ :: r => buf :: inputs_of r
  | _ :: r => inputs_of r
  end.

(** How many reads a trace holds. *)
Fixpoint read_count (tr : list event) : nat :=
  match tr with
  | [] => O
  | EvRead _ _ _ :: r => S (read_count r)
  | _ :: r => read_count r
  end.

(** The system calls of a trace, in order. *)
Fixpoint syscalls_of (tr : list event) : list syscall :=
  match tr with
  | [] => []
  | EvSys c _ :: r => c :: syscalls_of r
  | _ :: r => syscalls_of r
  end.



(** ** What a trace says about descriptors

    The descriptors a history has brought into being and not given back:
    those [accept] handed out ([accepted]: ever; [pending]: and not closed
    since), the value last stored in [mSessionSocket], and the descriptors
    the socket creation and the opening of the lock file handed out. *)
Record resources := {
  accepted : list Z;
  pending : list Z;
  session_now : Z;
  sockets : list Z;
  lockfiles : list Z
}.

Definition no_resources : resources :=
  {| accepted := []; pending := []; session_now := -1;
     sockets := []; lockfiles := [] |}.

Definition res_step (R : resources) (e : event) : resources :=
  match e with
  | EvSys (sys_accept _) r =>
      if rv r =? -1 then R else
      {| accepted := rv r :: accepted R; pending := rv r :: pending R;
         session_now := session_now R; sockets := sockets R;
         lockfiles := lockfiles R |}
  | EvSys (sys_close fd) _ =>
      {| accepted := accepted R; pending := filter (fun x => x <> fd) (pending R);
         session_now := session_now R; sockets := sockets R;
         lockfiles := lockfiles R |}
  | EvSys (SocketWithCloseExec _ _ _ _) r =>
      if rv r =? -1 then R else
      {| accepted := accepted R; pending := pending R;
         session_now := session_now R; sockets := rv r :: sockets R;
         lockfiles := lockfiles R |}
  | EvSys (sys_open _ _ _) r =>
      if rv r =? -1 then R else
      {| accepted := accepted R; pending := pending R;
         session_now := session_now R; sockets := sockets R;
         lockfiles := rv r :: lockfiles R |}
  | EvStore MSessionSocket v =>
      {| accepted := accepted R; pending := pending R; session_now := v;
         sockets := sockets R; lockfiles := lockfiles R |}
  | _ => R
  end.

Definition resources_of (tr : list event) : resources :=
  foldl res_step no_resources tr.

(** An event is in order after a history: a [close] gives back a descriptor
    [accept] handed out, a [read] is on the descriptor [mSessionSocket] holds,
    which is valid and was handed out by [accept], and a descriptor stored as
    the session was handed out by [accept]. *)
Definition res_safe (R : resources) (e : event) : Prop :=
  match e with
  | EvSys (sys_close fd) _ => fd ∈ accepted R
  | EvRead fd _ _ => fd = session_now R /\ fd <> -1 /\ fd ∈ accepted R
  | EvStore MSessionSocket v => v = -1 \/ v ∈ accepted R
  | _ => True
  end.

Fixpoint res_ok (R : resources) (tr : list event) : Prop :=
  match tr with
  | [] => True
  | e :: r => res_safe R e /\ res_ok (res_step R e) r
  end.

(** Between two operations: every event so far was in order, the session is
    what was last stored, a valid session was handed out by [accept], every
    descriptor [accept] handed out and not closed since is the session, and
    the listen descriptor and the lock descriptor are the only socket and the
    only lock file ever obtained. *)
Definition resources_consistent {K D} (s : state K D) : Prop :=
  let R := resources_of (trace s) in
  let d := self s in
  res_ok no_resources (trace s) /\
  session_now R = mSessionSocket d /\
  (mSessionSocket d <> -1 -> mSessionSocket d ∈ accepted R) /\
  (forall x, x ∈ pending R -> x = mSessionSocket d /\ x <> -1) /\
  sockets R = (if mListenSocket d =? -1 then [] else [mListenSocket d]) /\
  lockfiles R = (if mDaemonLock d =? -1 then [] else [mDaemonLock d]) /\
  (mListenSocket d = -1 -> mDaemonLock d = -1).

(** How often a system call of a kind occurs in a trace. *)
Definition count_calls (f : syscall -> bool) (tr : list event) : nat :=
  length (filter (fun c => f c = true) (syscalls_of tr)).

Definition is_accept (c : syscall) : bool :=
  match c with sys_accept _ => true | _ => false end.

Definition is_close (c : syscall) : bool :=
  match c with sys_close _ => true | _ => false end.

Definition is_setsockopt (c : syscall) : bool :=
  match c with sys_setsockopt _ _ _ _ => true | _ => false end.

(** The errors of the consumer calls that failed, and the errors the
    warnings about a failed input name, both in order. *)
Fixpoint failed_inputs (tr : list event) : list otbrError :=
  match tr with
  | [] => []
  | EvInput _ e :: r =>
      if otbrError_is_none e then failed_inputs r else e :: failed_inputs r
  | _ :: r => failed_inputs r
  end.

Fixpoint input_warnings (tr : list event) : list otbrError :=
  match tr with
  | [] => []
  | EvLog LogWarning fmt (ArgError e) :: r =>
      if String.eqb fmt "Failed to input command line, error:%s"
      then e :: input_warnings r else input_warnings r
  | _ :: r => input_warnings r
  end.

(** No NUL byte in a string. *)
Fixpoint nul_free (s : string) : bool :=
  match s with
  | EmptyString => true
  | String c r => negb (Ascii.eqb c zero) && nul_free r
  end.

(** The events [Process] may give rise to: [accept], the two [fcntl] calls,
    [setsockopt] on a build that has SO_NOSIGPIPE, [close], a [read] into the
    whole buffer, a store to [mSessionSocket], log lines, calls of the
    consumer. *)
Definition process_event (P : Platform) (e : event) : bool :=
  match e with
  | EvSys (sys_accept _) _ => true
  | EvSys (sys_fcntl _ _ _) _ => true
  | EvSys (sys_close _) _ => true
  | EvSys (sys_setsockopt _ _ _ _) _ =>
      match sigpipe_support P with BuildHasSoNoSigPipe => true | _ => false end
  | EvSys _ _ => false
  | EvRead _ n _ => Nat.eqb n (kCliMaxLineLength P)
  | EvStore MSessionSocket _ => true
  | EvStore _ _ => false
  | EvLog _ _ _ => true
  | EvInput _ _ => true
  end.

(** The events [Init] may give rise to: the six calls that set the endpoint
    up and the stores to [mListenSocket] and [mDaemonLock]. *)
Definition init_event (e : event) : bool :=
  match e with
  | EvSys (SocketWithCloseExec _ _ _ _) _ => true
  | EvSys (sys_open _ _ _) _ => true
  | EvSys (sys_flock _ _) _ => true
  | EvSys (sys_unlink _) _ => true
  | EvSys (sys_bind _ _ _) _ => true
  | EvSys (sys_listen _ _) _ => true
  | EvSys _ _ => false
  | EvStore MListenSocket _ => true
  | EvStore MDaemonLock _ => true
  | EvStore MSessionSocket _ => false
  | EvRead _ _ _ => false
  | EvLog _ _ _ => false
  | EvInput _ _ => false
  end.

(** From [s] to [s'] the endpoint is kept: the history is extended by
    events of the kind [Process] gives rise to (so by no store to
    [mListenSocket] or [mDaemonLock] and by none of the calls that set the
    endpoint up), and the listen and the lock descriptor are the same. *)
Definition endpoint_kept {K D} (P : Platform) (s s' : state K D) : Prop :=
  exists new,
    trace s' = trace s ++ new /\
    forallb (process_event P) new = true /\
    mListenSocket (self s') = mListenSocket (self s) /\
    mDaemonLock (self s') = mDaemonLock (self s).

(** ** Concrete settings

    A Linux build, a consumer that keeps what it is given, and a few
    processes on the scripted kernel. *)

Definition recorder := list (list byte).

(** It takes lines that end in a newline and rejects anything else. *)
#[export] Instance Dependencies_recorder : Dependencies recorder := {
  InputCommandLine buf d :=
    (match last buf with
     | Some x0a => OTBR_ERROR_NONE
     | _ => OTBR_ERROR_INVALID_ARGS
     end, d ++ [buf])
}.

Fixpoint string_repeat (c : ascii) (n : nat) : string :=
  match n with
  | O => EmptyString
  | S m => String c (string_repeat c m)
  end.

(** 87 bytes: the derived paths have 108. *)
Definition long_name : string := string_repeat "a" 87.

Definition script (l : list sysret) (r : list readret) : Script :=
  {| answers := l; read_answers := r |}.

(** The answers a successful [Init] needs: socket 3, lock file 4, the lock,
    no stale socket file to unlink, bind, listen. *)
Definition init_answers : list sysret :=
  [SysOk 3; SysOk 4; SysOk 0; SysErr 2; SysOk 0; SysOk 0].

(** A process whose endpoint is initialized (socket 3, lock 4). *)
Definition running (k : Script) (session : Z) : state Script recorder :=
  {| kernel := k; deps := []; errno := 0; trace := [];
     self := {| mListenSocket := 3; mDaemonLock := 4;
                mSessionSocket := session |} |}.

Definition ready (rd er : list Z) : MainloopContext :=
  {| mReadFdSet := list_to_set rd; mErrorFdSet := list_to_set er |}.

(** The six bytes of "state" and a newline. *)
Definition state_line : list byte := [x73; x74; x61; x74; x65; x0a].




(** A run in which a second client replaces the first (descriptors 5, then
    6), and one in which a client sends a line. *)
Definition two_clients_run : state Script recorder :=
  final (run_ops linux
           [OpInit "wpan0"; OpProcess (ready [3] []); OpProcess (ready [3] [])]
           (boot (script (init_answers ++
                          [SysOk 5; SysOk 0; SysOk 0;
                           SysOk 6; SysOk 0; SysOk 0; SysOk 0]) [])
                 ([] : recorder))).

Definition one_line_run : state Script recorder :=
  final (run_ops linux
           [OpInit "wpan0"; OpProcess (ready [3] []); OpProcess (ready [5] [])]
           (boot (script (init_answers ++ [SysOk 5; SysOk 0; SysOk 0])
                         [ReadData state_line])
                 ([] : recorder))).

(** * Properties *)

(** ** Arithmetic and strings *)

Lemma string_length_app (a b : string) :
  String.length (a ++ b)%string = (String.length a + String.length b)%nat.
Proof. induction a as [|c a IH]; simpl; [done|by rewrite IH]. Qed.

(** The socket path and the lock path of a name have the same length: the two
    suffixes are five bytes each. *)
Lemma derived_path_lengths_agree (n : string) :
  String.length (derived_path n kSocketSuffix) =
  String.length (derived_path n kSocketLockSuffix).
Proof. unfold derived_path. by rewrite !string_length_app. Qed.

Lemma derived_path_length (n suffix : string) :
  String.length (derived_path n suffix) =
  (16 + String.length (if string_empty n then kDefaultNetIfName else n)
   + String.length suffix)%nat.
Proof. unfold derived_path. rewrite !string_length_app. simpl. lia. Qed.

Lemma string_take_all (n : nat) (s : string) :
  (String.length s <= n)%nat -> string_take n s = s.
Proof.
  revert n. induction s as [|c s IH]; intros [|n] Hn; simpl in *; try done; try lia.
  f_equal. apply IH. lia.
Qed.

Lemma c_str_length (s : string) : (String.length (c_str s) <= String.length s)%nat.
Proof.
  induction s as [|c s IH]; simpl; [done|].
  destruct (Ascii.eqb c zero); simpl; lia.
Qed.

(** Under the length check [strncpy] copies the whole C string: nothing is
    cut off. *)
Lemma strncpy_keeps_checked_path (P : Platform) (s : string) :
  (String.length s <= kMaxSocketFilenameLength P)%nat ->
  strncpy_zeroed s (sun_path_size P - 1) = c_str s.
Proof.
  intros Hs. apply string_take_all.
  pose proof (c_str_length s). unfold kMaxSocketFilenameLength in Hs. lia.
Qed.

(** ** Traces *)




Lemma syscalls_of_app (a b : list event) :
  syscalls_of (a ++ b) = syscalls_of a ++ syscalls_of b.
Proof.
  induction a as [|e a IH]; simpl; [done|].
  destruct e; simpl; by rewrite IH.
Qed.

Lemma foldl_live_step_app (l : list Z) (a b : list event) :
  foldl live_step l (a ++ b) = foldl live_step (foldl live_step l a) b.
Proof. apply foldl_app. Qed.

Lemma steps_ok_app (l : list Z) (a b : list event) :
  steps_ok l (a ++ b) <-> steps_ok l a /\ steps_ok (foldl live_step l a) b.
Proof.
  revert l. induction a as [|e a IH]; intros l; simpl; [tauto|].
  rewrite IH. tauto.
Qed.

Lemma filter_ne_self (x : Z) : filter (fun y => y <> x) [x] = [].
Proof. rewrite filter_cons. by destruct (decide (x <> x)). Qed.



Section Properties.
Context {K D : Type} `{!Kernel K} `{!Dependencies D} (P : Platform).

Notation St := (state K D).

Lemma sys_eq (s : St) c r k' :
  ksys c (kernel s) = (r, k') -> sys c s = Ret (rv r) (after_sys s c r k').
Proof. intros E. unfold sys. by rewrite E. Qed.

(** Unfolding the computations down to the kernel's answers. *)
Ltac unfold_daemon :=
  unfold run_op, Process, Init, Deinit, InitializeSessionSocket,
    InitializeSessionSocket_body, nosigpipe_block, CreateListenSocket,
    GetSocketFilename, Clear, otbrLogInfo, otbrLogWarning, log, input,
    sys_read, VerifyOrDie, strerror_errno, store, sys, gets, bind, ret, Zne.

Ltac case_step :=
  match goal with
  | |- context [ksys ?c ?k] =>
      let r := fresh "r" in let k' := fresh "k" in let E := fresh "Ek" in
      destruct (ksys c k) as [r k'] eqn:E
  | |- context [kread ?fd ?n ?k] =>
      let k' := fresh "k" in let E := fresh "Er" in
      destruct (kread fd n k) as [[?|?] k'] eqn:E
  | |- context [InputCommandLine ?b ?d] =>
      let E := fresh "Ei" in destruct (InputCommandLine b d) as [? ?] eqn:E
  | |- context [?a =? ?b] => destruct (Z.eqb_spec a b)
  | |- context [FD_ISSET ?a ?b] =>
      let E := fresh "Ef" in destruct (FD_ISSET a b) eqn:E
  | |- context [sigpipe_support ?p] =>
      let E := fresh "Ep" in destruct (sigpipe_support p) eqn:E
  | |- context [otbrError_is_none ?e] =>
      let E := fresh "Ee" in destruct (otbrError_is_none e) eqn:E
  | |- context [(?a <=? ?b)%nat] =>
      let E := fresh "El" in destruct (a <=? b)%nat eqn:E
  end;
  cbn -[String.length String.append Z.lor take Z.of_nat Z.to_nat to_uint16] in *.

(** *** Clear *)

Lemma Clear_no_session (s : St) :
  mSessionSocket (self s) = -1 -> Clear s = Ret tt s.
Proof. intros E. unfold_daemon. by rewrite E. Qed.

Lemma Clear_session (s : St) r k' :
  mSessionSocket (self s) <> -1 ->
  ksys (sys_close (mSessionSocket (self s))) (kernel s) = (r, k') ->
  Clear s =
  Ret tt (after_store (after_sys s (sys_close (mSessionSocket (self s))) r k')
            MSessionSocket (-1)).
Proof.
  intros Hs E. unfold_daemon.
  destruct (Z.eqb_spec (mSessionSocket (self s)) (-1)); [done|].
  cbn. by rewrite E.
Qed.

(** [Clear] always returns, leaves no session, and touches neither the
    listen descriptor nor the lock descriptor nor the consumer. *)
Lemma Clear_returns (s : St) :
  exists s', Clear s = Ret tt s' /\
    mSessionSocket (self s') = -1 /\
    mListenSocket (self s') = mListenSocket (self s) /\
    mDaemonLock (self s') = mDaemonLock (self s) /\
    deps s' = deps s.
Proof.
  destruct (decide (mSessionSocket (self s) = -1)) as [E|E].
  - exists s. by rewrite Clear_no_session.
  - destruct (ksys (sys_close (mSessionSocket (self s))) (kernel s)) as [r k'] eqn:Ek.
    eexists. split; [by apply Clear_session|]. done.
Qed.

(** *** GetSocketFilename *)

Lemma GetSocketFilename_ok (n suffix : string) (s : St) :
  (String.length (derived_path n suffix) <= kMaxSocketFilenameLength P)%nat ->
  GetSocketFilename P n suffix s = Ret (derived_path n suffix) s.
Proof.
  intros H. unfold GetSocketFilename, bind, VerifyOrDie, ret.
  fold (derived_path n suffix). apply Nat.leb_le in H. by rewrite H.
Qed.

Lemma GetSocketFilename_too_long (n suffix : string) (s : St) :
  (kMaxSocketFilenameLength P < String.length (derived_path n suffix))%nat ->
  GetSocketFilename P n suffix s = Died (ArgError OTBR_ERROR_INVALID_ARGS) s.
Proof.
  intros H. unfold GetSocketFilename, bind, VerifyOrDie, ret.
  fold (derived_path n suffix). apply Nat.leb_gt in H. by rewrite H.
Qed.

(** *** Init on an initialized endpoint *)

Lemma Init_when_initialized (aNetIfName : string) (s : St) :
  mListenSocket (self s) <> -1 ->
  Init P aNetIfName s = Ret OTBR_ERROR_INVALID_STATE s.
Proof.
  intros Hl. unfold Init, bind, gets.
  destruct (Z.eqb_spec (mListenSocket (self s)) (-1)); [done|]. done.
Qed.

(** C5. [Init] on an object whose listen descriptor is valid returns
    OTBR_ERROR_INVALID_STATE and hands back the very state it was given: no
    system call is made (the kernel and the trace are the same) and the listen
    descriptor, the lock descriptor and the session are untouched. *)
Theorem Init_rejected_when_initialized (aNetIfName : string) (s : St) :
  mListenSocket (self s) <> -1 ->
  Init P aNetIfName s = Ret OTBR_ERROR_INVALID_STATE s /\
  syscalls_of (trace (final (Init P aNetIfName s))) = syscalls_of (trace s) /\
  self (final (Init P aNetIfName s)) = self s.
Proof.
  intros Hl. by rewrite (Init_when_initialized _ _ Hl).
Qed.

(** *** A failed accept *)

(** C10. When [accept] returns -1 in [InitializeSessionSocket], [flag] still
    holds -1 at the [exit] label, so the warning is logged and [Clear] runs:
    the function returns with no session, and a session that was active has
    been closed although no new connection was obtained. *)
Theorem failed_accept_clears_session (s : St) (r : sysret) (k' : K) :
  ksys (sys_accept (mListenSocket (self s))) (kernel s) = (r, k') ->
  rv r = -1 ->
  let s0 := after_sys s (sys_accept (mListenSocket (self s))) r k' in
  let s1 := emit (EvLog LogWarning "Failed to initialize session socket: %s"
                    (ArgErrno (errno s0))) s0 in
  InitializeSessionSocket P s = Clear s1 /\
  exists s', Clear s1 = Ret tt s' /\
    mSessionSocket (self s') = -1 /\
    (mSessionSocket (self s) <> -1 ->
     exists rc kc,
       ksys (sys_close (mSessionSocket (self s))) k' = (rc, kc) /\
       s' = after_store (after_sys s1 (sys_close (mSessionSocket (self s))) rc kc)
              MSessionSocket (-1)).
Proof.
  intros Ek Hr s0 s1. split.
  - unfold InitializeSessionSocket, InitializeSessionSocket_body, bind, gets.
    rewrite (sys_eq _ _ _ _ Ek), Hr. done.
  - destruct (Clear_returns s1) as (s' & Hc & Hs & _).
    exists s'. split; [done|]. split; [done|].
    intros Hn.
    destruct (ksys (sys_close (mSessionSocket (self s))) k') as [rc kc] eqn:Ec.
    exists rc, kc. split; [done|].
    rewrite (Clear_session s1 rc kc) in Hc; [|done|done].
    by injection Hc as <-.
Qed.

(** *** A name whose path is too long *)

(** C1, as the code has it.  For a name whose derived path exceeds
    sizeof(sun_path) - 1 bytes, [CreateListenSocket] never succeeds, and the
    one system call it makes is the creation of the socket, which comes first:
    when that call fails the function returns OTBR_ERROR_ERRNO, otherwise the
    process is terminated by the length check of [GetSocketFilename].  The
    lock file is never opened and the socket is never bound.  [Init] on an
    object without a listen descriptor ends the same way. *)
Theorem CreateListenSocket_path_too_long
    (aNetIfName : string) (s : St) (r : sysret) (k' : K) :
  (kMaxSocketFilenameLength P <
   String.length (derived_path aNetIfName kSocketSuffix))%nat ->
  ksys (SocketWithCloseExec AF_UNIX SOCK_STREAM 0 kSocketNonBlock) (kernel s)
    = (r, k') ->
  let s1 :=
    after_store
      (after_sys s (SocketWithCloseExec AF_UNIX SOCK_STREAM 0 kSocketNonBlock) r k')
      MListenSocket (rv r) in
  CreateListenSocket P aNetIfName s =
    (if rv r =? -1 then Ret OTBR_ERROR_ERRNO s1
     else Died (ArgError OTBR_ERROR_INVALID_ARGS) s1) /\
  syscalls_of (trace s1) =
    syscalls_of (trace s) ++ [SocketWithCloseExec AF_UNIX SOCK_STREAM 0 kSocketNonBlock] /\
  (mListenSocket (self s) = -1 ->
   Init P aNetIfName s = CreateListenSocket P aNetIfName s).
Proof.
  intros Hlen Ek s1.
  assert (CreateListenSocket P aNetIfName s =
          (if rv r =? -1 then Ret OTBR_ERROR_ERRNO s1
           else Died (ArgError OTBR_ERROR_INVALID_ARGS) s1)) as HC.
  { unfold CreateListenSocket, bind. rewrite (sys_eq _ _ _ _ Ek).
    unfold store. fold s1. unfold Zne.
    destruct (rv r =? -1); simpl; [done|].
    rewrite derived_path_lengths_agree in Hlen.
    by rewrite GetSocketFilename_too_long. }
  split; [done|]. split.
  - subst s1. cbn [trace after_store after_sys].
    rewrite !syscalls_of_app. simpl. by rewrite app_nil_r.
  - intros Hl. unfold Init, bind, gets. rewrite Hl, Z.eqb_refl, HC.
    by destruct (rv r =? -1).
Qed.

(** *** InitializeSessionSocket *)

Ltac case_eqb :=
  repeat match goal with
  | |- context [?a =? ?b] => destruct (Z.eqb_spec a b); try congruence; simpl
  end.

Ltac solve_sessions :=
  let Hok := fresh "Hok" in let Hlive := fresh "Hlive" in
  intros [Hok Hlive]; unfold sessions_consistent;
  cbn [trace self after_sys after_store after_read after_input emit set_member
       mSessionSocket mListenSocket mDaemonLock] in *;
  rewrite <- ?app_assoc; unfold live_sessions in *;
  rewrite steps_ok_app, foldl_live_step_app, Hlive;
  case_eqb; simpl; unfold step_ok; simpl; case_eqb;
  rewrite ?filter_ne_self, ?filter_cons, ?filter_nil;
  repeat (case_decide; simpl; rewrite ?filter_ne_self, ?filter_cons, ?filter_nil);
  repeat split; simpl; try done; try lia; try congruence.

Lemma InitializeSessionSocket_summary (s : St) :
  exists s' new,
    InitializeSessionSocket P s = Ret tt s' /\
    trace s' = trace s ++ new /\
    mListenSocket (self s') = mListenSocket (self s) /\
    mDaemonLock (self s') = mDaemonLock (self s) /\
    deps s' = deps s /\
    inputs_of new = [] /\ chunks_of new = [] /\
    (sessions_consistent s -> sessions_consistent s').
Proof.
  unfold_daemon. repeat case_step.
  all: eexists _, _; split; [reflexivity|].
  all: split; [cbn [trace after_sys after_store emit]; rewrite <- ?app_assoc; reflexivity|].
  all: do 5 (split; [done|]).
  all: solve_sessions.
Qed.

(** *** Process *)

Ltac unfold_process :=
  unfold run_op, Process, Init, Deinit, Clear, otbrLogInfo, otbrLogWarning, log,
    input, sys_read, VerifyOrDie, strerror_errno, store, sys, gets, bind, ret, Zne.


(** *** Init, Deinit and runs of operations *)






(** *** Process, case by case *)

Lemma InitializeSessionSocket_returns (s : St) :
  InitializeSessionSocket P s = Ret tt (final (InitializeSessionSocket P s)).
Proof.
  destruct (InitializeSessionSocket_summary s) as (s1 & new & E & _).
  by rewrite E.
Qed.

Lemma Process_uninitialized (aContext : MainloopContext) (s : St) :
  mListenSocket (self s) = -1 -> Process P aContext s = Ret tt s.
Proof. intros E. unfold Process, bind, gets, Zne. by rewrite E. Qed.

Lemma Process_listen_error (aContext : MainloopContext) (s : St) :
  mListenSocket (self s) <> -1 ->
  FD_ISSET (mListenSocket (self s)) (mErrorFdSet aContext) = true ->
  Process P aContext s = Died (ArgErrno (errno s)) s.
Proof.
  intros Hl He. unfold Process, bind, gets, VerifyOrDie, Zne.
  destruct (Z.eqb_spec (mListenSocket (self s)) (-1)); [done|].
  simpl. by rewrite He.
Qed.

(** Past the two checks, [Process] is its second half run in the state the
    accept step leaves. *)
Ltac enter_process Hent c s :=
  let Hl := fresh "Hl" in let He := fresh "He" in
  destruct Hent as [Hl He];
  unfold accept_step in *; unfold Process, bind, gets, VerifyOrDie, Zne, ret;
  destruct (Z.eqb_spec (mListenSocket (self s)) (-1)); [done|];
  cbn [negb]; rewrite He; cbn [negb];
  destruct (FD_ISSET (mListenSocket (self s)) (mReadFdSet c));
  [rewrite InitializeSessionSocket_returns;
   set (s1 := final (InitializeSessionSocket P s)) in *; clearbody s1|].

Ltac session_valid :=
  match goal with
  | |- context [negb (?a =? -1)] =>
      destruct (Z.eqb_spec a (-1)); [try done|]; cbn [negb]
  end.

Lemma Process_no_session (aContext : MainloopContext) (s : St) :
  entered aContext s ->
  mSessionSocket (self (accept_step P aContext s)) = -1 ->
  Process P aContext s = Ret tt (accept_step P aContext s).
Proof.
  intros Hent. enter_process Hent aContext s; cbn [final]; intros Hs.
  all: by rewrite Hs.
Qed.

Lemma Process_session_error (aContext : MainloopContext) (s : St) :
  entered aContext s ->
  mSessionSocket (self (accept_step P aContext s)) <> -1 ->
  FD_ISSET (mSessionSocket (self (accept_step P aContext s)))
           (mErrorFdSet aContext) = true ->
  Process P aContext s = Clear (accept_step P aContext s).
Proof.
  intros Hent. enter_process Hent aContext s; cbn [final]; intros Hs Hse.
  all: session_valid; by rewrite Hse.
Qed.

Lemma Process_session_idle (aContext : MainloopContext) (s : St) :
  entered aContext s ->
  FD_ISSET (mSessionSocket (self (accept_step P aContext s)))
           (mErrorFdSet aContext) = false ->
  FD_ISSET (mSessionSocket (self (accept_step P aContext s)))
           (mReadFdSet aContext) = false ->
  Process P aContext s = Ret tt (accept_step P aContext s).
Proof.
  intros Hent. enter_process Hent aContext s; cbn [final]; intros Hse Hsr.
  all: destruct (negb _); [|done]; by rewrite Hse, Hsr.
Qed.

Lemma Process_read_error (aContext : MainloopContext) (s : St) (e : Z) (k' : K) :
  let s1 := accept_step P aContext s in
  let fd := mSessionSocket (self s1) in
  entered aContext s ->
  fd <> -1 ->
  FD_ISSET fd (mErrorFdSet aContext) = false ->
  FD_ISSET fd (mReadFdSet aContext) = true ->
  kread fd (kCliMaxLineLength P) (kernel s1) = (ReadErr e, k') ->
  Process P aContext s =
  Died (ArgErrno e) (after_read s1 fd (kCliMaxLineLength P) (ReadErr e) k').
Proof.
  intros s1 fd Hent. subst s1 fd.
  enter_process Hent aContext s; cbn [final]; intros Hs Hse Hsr Hk.
  all: session_valid; rewrite Hse, Hsr; unfold sys_read; by rewrite Hk.
Qed.

Lemma Process_read_eof (aContext : MainloopContext) (s : St)
    (bs : list byte) (k' : K) :
  let s1 := accept_step P aContext s in
  let fd := mSessionSocket (self s1) in
  entered aContext s ->
  fd <> -1 ->
  FD_ISSET fd (mErrorFdSet aContext) = false ->
  FD_ISSET fd (mReadFdSet aContext) = true ->
  kread fd (kCliMaxLineLength P) (kernel s1) = (ReadData bs, k') ->
  take (kCliMaxLineLength P) bs = [] ->
  Process P aContext s =
  Clear (emit (EvLog LogInfo "Session socket closed by peer" ArgNone)
           (after_read s1 fd (kCliMaxLineLength P) (ReadData []) k')).
Proof.
  intros s1 fd Hent. subst s1 fd.
  enter_process Hent aContext s; cbn [final]; intros Hs Hse Hsr Hk Ht.
  all: session_valid; rewrite Hse, Hsr; unfold sys_read; rewrite Hk.
  all: cbn [clip]; by rewrite Ht.
Qed.


Lemma Process_after_accept (aContext : MainloopContext) (s : St) :
  entered aContext s ->
  let s1 := accept_step P aContext s in
  let fd := mSessionSocket (self s1) in
  exists new2,
    trace (final (Process P aContext s)) = trace s1 ++ new2 /\
    (syscalls_of new2 = [] \/ syscalls_of new2 = [sys_close fd]) /\
    (fd <> -1 -> FD_ISSET fd (mErrorFdSet aContext) = false ->
     FD_ISSET fd (mReadFdSet aContext) = true ->
     exists r rest, new2 = EvRead fd (kCliMaxLineLength P) r :: rest).
Proof.
  intros Hent s1 fd. subst s1 fd.
  enter_process Hent aContext s; cbn [final].
  all: unfold_process; repeat case_step.
  all: eexists; split;
    [cbn [final trace after_sys after_store after_read after_input emit];
     rewrite <- ?app_assoc; try reflexivity; symmetry; apply app_nil_r|].
  all: split; [simpl; auto|].
  all: try (intros; congruence).
  all: intros _ _ _; eexists _, _; reflexivity.
Qed.

(** *** A successful accept, a successful Init *)

Lemma InitializeSessionSocket_adopts (s : St) (n : Z) (k' : K) :
  accepts P (kernel s) (mListenSocket (self s)) n k' ->
  exists s', InitializeSessionSocket P s = Ret tt s' /\
    mSessionSocket (self s') = n /\
    mListenSocket (self s') = mListenSocket (self s) /\
    mDaemonLock (self s') = mDaemonLock (self s).
Proof.
  intros (r1 & k1 & r2 & k2 & r3 & k3 & E1 & <- & Hn & E2 & H2 & E3 & H3 & E4).
  unfold_daemon. rewrite E1. cbn.
  destruct (Z.eqb_spec (rv r1) (-1)); [done|]. cbn. rewrite E2. cbn.
  destruct (Z.eqb_spec (rv r2) (-1)); [done|]. cbn. rewrite E3. cbn.
  destruct (Z.eqb_spec (rv r3) (-1)); [done|]. cbn.
  destruct (sigpipe_support P).
  1,3: repeat case_step; eexists; (split; [reflexivity|done]).
  destruct E4 as (r4 & E4 & H4). cbn. rewrite E4. cbn.
  destruct (Z.eqb_spec (rv r4) (-1)); [done|]. cbn.
  repeat case_step; eexists; (split; [reflexivity|done]).
Qed.

Lemma Init_succeeds (aNetIfName : string) (s : St) (l lk : Z) (k' : K) :
  (String.length (derived_path aNetIfName kSocketSuffix)
   <= kMaxSocketFilenameLength P)%nat ->
  mListenSocket (self s) = -1 ->
  serves_Init aNetIfName (kernel s) l lk k' ->
  exists s', Init P aNetIfName s = Ret OTBR_ERROR_NONE s' /\
    mListenSocket (self s') = l /\ mDaemonLock (self s') = lk /\
    mSessionSocket (self s') = mSessionSocket (self s) /\ kernel s' = k'.
Proof.
  intros Hlen Hl (r1 & k1 & r2 & k2 & r3 & k3 & r4 & k4 & r5 & k5 & r6 &
                  E1 & <- & H1 & E2 & <- & H2 & E3 & H3 & E4 & E5 & H5 & E6 & H6).
  pose proof Hlen as Hlen'. rewrite derived_path_lengths_agree in Hlen'.
  unfold Init, CreateListenSocket, bind, gets, store, ret, Zne.
  rewrite Hl, Z.eqb_refl. rewrite (sys_eq _ _ _ _ E1).
  destruct (Z.eqb_spec (rv r1) (-1)); [done|]. cbn [negb].
  rewrite (GetSocketFilename_ok _ _ _ Hlen').
  rewrite (sys_eq _ _ r2 k2) by done.
  destruct (Z.eqb_spec (rv r2) (-1)); [done|]. cbn [negb].
  rewrite (sys_eq _ _ r3 k3) by done.
  destruct (Z.eqb_spec (rv r3) (-1)); [done|]. cbn [negb].
  rewrite (GetSocketFilename_ok _ _ _ Hlen).
  rewrite (strncpy_keeps_checked_path _ _ Hlen).
  rewrite (sys_eq _ _ r4 k4) by done.
  rewrite (sys_eq _ _ r5 k5) by done.
  destruct (Z.eqb_spec (rv r5) (-1)); [done|]. cbn [negb otbrError_is_none].
  rewrite (sys_eq _ _ r6 k') by done.
  destruct (Z.eqb_spec (rv r6) (-1)); [done|]. cbn [negb].
  eexists. split; [reflexivity|done].
Qed.

(** *** The events of Process and of Deinit; runs on an initialized endpoint *)

Ltac solve_footprint :=
  cbn [trace after_sys after_store after_read after_input emit];
  rewrite <- ?app_assoc, ?forallb_app;
  cbn [forallb process_event init_event andb];
  rewrite ?Nat.eqb_refl;
  repeat match goal with
  | H : sigpipe_support _ = _ |- _ => rewrite H
  end;
  reflexivity.

Lemma InitializeSessionSocket_footprint (s : St) :
  exists s' new,
    InitializeSessionSocket P s = Ret tt s' /\
    trace s' = trace s ++ new /\
    forallb (process_event P) new = true /\
    mListenSocket (self s') = mListenSocket (self s) /\
    mDaemonLock (self s') = mDaemonLock (self s).
Proof.
  unfold_daemon. repeat case_step.
  all: try (exfalso; congruence).
  all: eexists _, _; split; [reflexivity|].
  all: split;
    [cbn [trace after_sys after_store emit]; rewrite <- ?app_assoc; reflexivity|].
  all: split; [solve_footprint|done].
Qed.

Lemma Process_events (aContext : MainloopContext) (s : St) :
  exists new,
    trace (final (Process P aContext s)) = trace s ++ new /\
    forallb (process_event P) new = true /\
    mListenSocket (self (final (Process P aContext s))) = mListenSocket (self s) /\
    mDaemonLock (self (final (Process P aContext s))) = mDaemonLock (self s).
Proof.
  destruct (InitializeSessionSocket_footprint s)
    as (s1 & new1 & E1 & Htr1 & Hf1 & Hl1 & Hk1).
  unfold_process. repeat first [rewrite E1 | case_step].
  all: try (exfalso; lia); try (exfalso; congruence).
  all: eexists; split;
    [cbn [trace after_sys after_store after_read after_input emit];
     rewrite ?Htr1, <- ?app_assoc; try reflexivity;
     symmetry; apply app_nil_r|].
  all: split; [rewrite ?forallb_app, ?Hf1; try solve_footprint; done|done].
Qed.

(** What [Clear], and so [Deinit], does to a state. *)
Lemma Clear_effect (s : St) :
  exists s', Clear s = Ret tt s' /\
    mSessionSocket (self s') = -1 /\
    mListenSocket (self s') = mListenSocket (self s) /\
    mDaemonLock (self s') = mDaemonLock (self s) /\
    (mSessionSocket (self s) = -1 -> s' = s) /\
    (mSessionSocket (self s) <> -1 ->
     exists rc,
       ksys (sys_close (mSessionSocket (self s))) (kernel s) = (rc, kernel s') /\
       trace s' = trace s ++ [EvSys (sys_close (mSessionSocket (self s))) rc;
                              EvStore MSessionSocket (-1)]).
Proof.
  destruct (decide (mSessionSocket (self s) = -1)) as [E|E].
  - exists s. rewrite Clear_no_session by done. by repeat split.
  - destruct (ksys (sys_close (mSessionSocket (self s))) (kernel s)) as [r k'] eqn:Ek.
    eexists. split; [by apply Clear_session|].
    do 3 (split; [done|]). split; [done|].
    intros _. exists r. split; [done|].
    cbn [trace after_store after_sys]. by rewrite <- app_assoc.
Qed.

(** On an endpoint that is initialized no operation stores to the listen or
    the lock descriptor or repeats a call of the set-up. *)
Lemma run_op_endpoint (o : op) (s : St) :
  mListenSocket (self s) <> -1 -> endpoint_kept P s (final (run_op P o s)).
Proof.
  intros Hl. destruct o as [n| |c].
  - unfold run_op, bind, ret. rewrite (Init_when_initialized n s Hl).
    exists []. by rewrite app_nil_r.
  - unfold run_op, Deinit.
    destruct (Clear_effect s) as (s' & E & _ & Hl' & Hk' & Hno & Hyes).
    rewrite E. cbn [final].
    destruct (decide (mSessionSocket (self s) = -1)) as [Es|Es].
    + rewrite (Hno Es). exists []. by rewrite app_nil_r.
    + destruct (Hyes Es) as (rc & _ & Ht). eexists. split; [exact Ht|done].
  - apply Process_events.
Qed.

Lemma run_ops_endpoint (os : list op) (s : St) :
  mListenSocket (self s) <> -1 -> endpoint_kept P s (final (run_ops P os s)).
Proof.
  revert s. induction os as [|o os IH]; intros s Hl.
  - exists []. simpl. by rewrite app_nil_r.
  - destruct (run_op_endpoint o s Hl) as (n1 & Ht1 & Hf1 & Hl1 & Hk1).
    simpl. unfold bind.
    destruct (run_op P o s) as [[] s1|w s1]; simpl in *.
    + destruct (IH s1) as (n2 & Ht2 & Hf2 & Hl2 & Hk2); [congruence|].
      exists (n1 ++ n2). rewrite Ht2, Ht1, <- app_assoc, forallb_app, Hf1, Hf2.
      split; [done|]. split; [done|]. split; congruence.
    + by exists n1.
Qed.

(** ** The properties of the specification *)



(** C3, as the code has it.  For a name whose path is within the limit,
    [Init] on a never-initialized object succeeds when each of its system
    calls succeeds, and leaves a valid listen descriptor and a valid lock
    descriptor.  [Deinit] closes the session only: it makes no call without
    a session and the one [close] of the session descriptor with one, and
    stores -1 in [mSessionSocket].  After it, and after any further
    operations, the listen descriptor and the lock descriptor are still the
    same valid ones (nothing is stored to them and no call of the set-up is
    made again), so every later [Init] is rejected with
    OTBR_ERROR_INVALID_STATE and changes nothing. *)
Theorem Init_succeeds_once (aNetIfName : string) (s : St) (l lk : Z) (k' : K) :
  (String.length (derived_path aNetIfName kSocketSuffix)
   <= kMaxSocketFilenameLength P)%nat ->
  mListenSocket (self s) = -1 ->
  serves_Init aNetIfName (kernel s) l lk k' ->
  exists s1,
    Init P aNetIfName s = Ret OTBR_ERROR_NONE s1 /\
    mListenSocket (self s1) = l /\ l <> -1 /\
    mDaemonLock (self s1) = lk /\ lk <> -1 /\
    mSessionSocket (self s1) = mSessionSocket (self s) /\
    (exists s2, Deinit s1 = Ret tt s2 /\
       mListenSocket (self s2) = l /\ mDaemonLock (self s2) = lk /\
       mSessionSocket (self s2) = -1 /\
       (mSessionSocket (self s1) = -1 -> s2 = s1) /\
       (mSessionSocket (self s1) <> -1 ->
        exists rc,
          ksys (sys_close (mSessionSocket (self s1))) (kernel s1) = (rc, kernel s2) /\
          trace s2 = trace s1 ++ [EvSys (sys_close (mSessionSocket (self s1))) rc;
                                  EvStore MSessionSocket (-1)]) /\
       forall n', Init P n' s2 = Ret OTBR_ERROR_INVALID_STATE s2) /\
    (forall os n',
       let s3 := final (run_ops P os s1) in
       mListenSocket (self s3) = l /\
       mDaemonLock (self s3) = lk /\
       (exists new, trace s3 = trace s1 ++ new /\
          forallb (process_event P) new = true) /\
       Init P n' s3 = Ret OTBR_ERROR_INVALID_STATE s3).
Proof.
  intros Hlen Hl Hk.
  assert (l <> -1 /\ lk <> -1) as [Hlv Hlkv]
    by (destruct Hk as (?&?&?&?&?&?&?&?&?&?&?&?&?&?&?&?&?&?&?); done).
  destruct (Init_succeeds _ _ _ _ _ Hlen Hl Hk) as (s1 & E & Hl1 & Hk1 & Hs1 & _).
  exists s1. do 6 (split; [done|]). split.
  - destruct (Clear_effect s1) as (s2 & Ec & Hs2 & Hl2 & Hk2 & Hno & Hyes).
    exists s2. split; [done|]. split; [congruence|]. split; [congruence|].
    do 3 (split; [done|]).
    intros n'. apply Init_when_initialized. congruence.
  - intros os n' s3.
    destruct (run_ops_endpoint os s1) as (new & Ht & Hf & Hl3 & Hk3); [congruence|].
    fold s3 in Ht, Hl3, Hk3.
    split; [congruence|]. split; [congruence|]. split; [by exists new|].
    apply Init_when_initialized. congruence.
Qed.

Lemma accept_step_keeps_listen (aContext : MainloopContext) (s : St) :
  mListenSocket (self (accept_step P aContext s)) = mListenSocket (self s).
Proof.
  unfold accept_step. destruct (FD_ISSET _ _); [|done].
  destruct (InitializeSessionSocket_summary s) as (s1 & new & E & _ & Hl & _).
  by rewrite E.
Qed.

Lemma accept_step_keeps_lock (aContext : MainloopContext) (s : St) :
  mDaemonLock (self (accept_step P aContext s)) = mDaemonLock (self s).
Proof.
  unfold accept_step. destruct (FD_ISSET _ _); [|done].
  destruct (InitializeSessionSocket_summary s) as (s1 & new & E & _ & _ & Hk & _).
  by rewrite E.
Qed.


(** C6. With a valid listen descriptor, [Process] treats failures in two
    ways.  The listen descriptor in the error set ends the process.  An
    active session whose descriptor is in the error set is cleared: the one
    thing [Process] does after the accept step is to close that descriptor
    (whatever [close] answers) and to store -1 in [mSessionSocket]; nothing
    is read or forwarded, and [Process] returns with the listen descriptor
    and the lock descriptor as they were, so the loop goes on.  A failing
    [read] on the session descriptor ends the process. *)
Theorem Process_failures_bifurcated (aContext : MainloopContext) (s : St) :
  mListenSocket (self s) <> -1 ->
  (FD_ISSET (mListenSocket (self s)) (mErrorFdSet aContext) = true ->
   Process P aContext s = Died (ArgErrno (errno s)) s) /\
  (FD_ISSET (mListenSocket (self s)) (mErrorFdSet aContext) = false ->
   let s1 := accept_step P aContext s in
   let fd := mSessionSocket (self s1) in
   fd <> -1 ->
   (FD_ISSET fd (mErrorFdSet aContext) = true ->
    exists s2, Process P aContext s = Ret tt s2 /\ Clear s1 = Ret tt s2 /\
      mSessionSocket (self s2) = -1 /\
      mListenSocket (self s2) = mListenSocket (self s) /\
      mDaemonLock (self s2) = mDaemonLock (self s) /\
      deps s2 = deps s1 /\
      exists rc,
        ksys (sys_close fd) (kernel s1) = (rc, kernel s2) /\
        trace s2 = trace s1 ++ [EvSys (sys_close fd) rc; EvStore MSessionSocket (-1)] /\
        errno s2 = match rc with SysErr e => e | SysOk _ => errno s1 end) /\
   (FD_ISSET fd (mErrorFdSet aContext) = false ->
    FD_ISSET fd (mReadFdSet aContext) = true ->
    forall e k', kread fd (kCliMaxLineLength P) (kernel s1) = (ReadErr e, k') ->
      Process P aContext s =
      Died (ArgErrno e) (after_read s1 fd (kCliMaxLineLength P) (ReadErr e) k'))).
Proof.
  intros Hl. split; [by apply Process_listen_error|].
  intros He s1 fd Hfd. assert (entered aContext s) as Hent by done. split.
  - intros Hse.
    destruct (ksys (sys_close fd) (kernel s1)) as [rc kc] eqn:Ek.
    pose proof (Clear_session s1 rc kc Hfd Ek) as Ec. fold fd in Ec.
    eexists. rewrite (Process_session_error aContext s Hent Hfd Hse).
    fold s1. split; [exact Ec|]. split; [exact Ec|].
    split; [done|].
    split; [apply accept_step_keeps_listen|].
    split; [apply accept_step_keeps_lock|].
    split; [done|].
    exists rc. split; [done|].
    split; [cbn [trace after_store after_sys]; by rewrite <- app_assoc|done].
  - intros Hse Hsr e k' Hk. by apply Process_read_error.
Qed.

Lemma InitializeSessionSocket_trace (s : St) :
  exists r rest,
    trace (final (InitializeSessionSocket P s)) =
      trace s ++ EvSys (sys_accept (mListenSocket (self s))) r :: rest /\
    read_count rest = 0%nat /\ inputs_of rest = [].
Proof.
  unfold_daemon. repeat case_step.
  all: eexists _, _; split;
    [cbn [final trace after_sys after_store emit]; rewrite <- ?app_assoc;
     reflexivity|done].
Qed.

(** C9, as the code has it.  With an invalid listen descriptor [Process]
    does nothing.  Otherwise the accept comes first: when the listen
    descriptor is readable the first thing done is the [accept] call, and all
    that follows the accept step (no further accept, at most the closing of
    the session) works on the state that step leaves.  If no session is
    active then, [Process] stops.  [Process] tests whatever descriptor is the
    session after the accept step against the readiness sets it was given: a
    connection accepted in this invocation is left alone when its descriptor
    is in neither set, and is read at once when its descriptor is marked
    readable and not erroring. *)
Theorem Process_order (aContext : MainloopContext) (s : St) :
  (mListenSocket (self s) = -1 -> Process P aContext s = Ret tt s) /\
  (entered aContext s ->
   let s1 := accept_step P aContext s in
   let fd := mSessionSocket (self s1) in
   (FD_ISSET (mListenSocket (self s)) (mReadFdSet aContext) = true ->
    exists r rest,
      trace s1 = trace s ++ EvSys (sys_accept (mListenSocket (self s))) r :: rest /\
      read_count rest = 0%nat /\ inputs_of rest = []) /\
   (exists new2,
      trace (final (Process P aContext s)) = trace s1 ++ new2 /\
      (syscalls_of new2 = [] \/ syscalls_of new2 = [sys_close fd]) /\
      (fd <> -1 -> FD_ISSET fd (mErrorFdSet aContext) = false ->
       FD_ISSET fd (mReadFdSet aContext) = true ->
       exists r rest, new2 = EvRead fd (kCliMaxLineLength P) r :: rest)) /\
   (fd = -1 -> Process P aContext s = Ret tt s1) /\
   (FD_ISSET fd (mErrorFdSet aContext) = false ->
    FD_ISSET fd (mReadFdSet aContext) = false ->
    Process P aContext s = Ret tt s1)).
Proof.
  split; [apply Process_uninitialized|].
  intros Hent s1 fd. split; [|split; [|split]].
  - intros Hr. subst s1. unfold accept_step. rewrite Hr.
    apply InitializeSessionSocket_trace.
  - by apply Process_after_accept.
  - by apply Process_no_session.
  - by apply Process_session_idle.
Qed.

Lemma UpdateFdSet_registers (d : CliDaemon) (c : MainloopContext) (fd : Z)
    (set : MainloopContext -> fd_set) :
  set = mReadFdSet \/ set = mErrorFdSet ->
  set c = ∅ ->
  fd ∈ set (UpdateFdSet d c) ->
  fd = mListenSocket d \/ fd = mSessionSocket d.
Proof.
  intros Hset Hc. unfold UpdateFdSet, AddFdToSet, Zne.
  destruct Hset as [-> | ->]; repeat case_match; simpl;
    rewrite ?elem_of_union, ?elem_of_singleton, ?Hc, ?elem_of_empty; tauto.
Qed.

(** When the readiness sets hold only what this object registered before the
    call, and the accepted descriptor is a new one, the connection accepted
    in an invocation is not touched again in that invocation. *)
Lemma fresh_connection_left_alone (aContext : MainloopContext) (s : St)
    (n : Z) (k' : K) :
  entered aContext s ->
  within_registered (self s) aContext ->
  FD_ISSET (mListenSocket (self s)) (mReadFdSet aContext) = true ->
  accepts P (kernel s) (mListenSocket (self s)) n k' ->
  n <> mListenSocket (self s) ->
  n <> mSessionSocket (self s) ->
  mSessionSocket (self (accept_step P aContext s)) = n /\
  Process P aContext s = Ret tt (accept_step P aContext s).
Proof.
  intros Hent [Hrd Her] Hr Hacc Hnl Hns.
  assert (mSessionSocket (self (accept_step P aContext s)) = n) as Hs1.
  { unfold accept_step. rewrite Hr.
    destruct (InitializeSessionSocket_adopts s n k' Hacc) as (s1 & E & Hs & _).
    by rewrite E. }
  split; [done|].
  apply Process_session_idle; [done| |]; rewrite Hs1; unfold FD_ISSET;
    apply bool_decide_eq_false; intros Hin.
  - apply Her in Hin.
    destruct (UpdateFdSet_registers (self s) {| mReadFdSet := ∅; mErrorFdSet := ∅ |}
                n mErrorFdSet (or_intror eq_refl) eq_refl Hin); congruence.
  - apply Hrd in Hin.
    destruct (UpdateFdSet_registers (self s) {| mReadFdSet := ∅; mErrorFdSet := ∅ |}
                n mReadFdSet (or_introl eq_refl) eq_refl Hin); congruence.
Qed.

(** C7. A read of zero bytes on the session descriptor makes [Process] log
    the peer's close at info level, close the descriptor and return with no
    session: nothing is reported as an error (no warning, no termination).
    The listen descriptor is as it was, and when it is next readable and the
    kernel completes an accept, the accept step adopts the new connection. *)
Theorem peer_close_clears_session (aContext : MainloopContext) (s : St)
    (bs : list byte) (k' : K) (rc : sysret) (kc : K) :
  let s1 := accept_step P aContext s in
  let fd := mSessionSocket (self s1) in
  let s2 :=
    after_store
      (after_sys
         (emit (EvLog LogInfo "Session socket closed by peer" ArgNone)
            (after_read s1 fd (kCliMaxLineLength P) (ReadData []) k'))
         (sys_close fd) rc kc)
      MSessionSocket (-1) in
  entered aContext s ->
  fd <> -1 ->
  FD_ISSET fd (mErrorFdSet aContext) = false ->
  FD_ISSET fd (mReadFdSet aContext) = true ->
  kread fd (kCliMaxLineLength P) (kernel s1) = (ReadData bs, k') ->
  take (kCliMaxLineLength P) bs = [] ->
  ksys (sys_close fd) k' = (rc, kc) ->
  Process P aContext s = Ret tt s2 /\
  mSessionSocket (self s2) = -1 /\
  mListenSocket (self s2) = mListenSocket (self s) /\
  mDaemonLock (self s2) = mDaemonLock (self s1) /\
  (forall c' n k'',
     FD_ISSET (mListenSocket (self s)) (mReadFdSet c') = true ->
     accepts P kc (mListenSocket (self s)) n k'' ->
     mSessionSocket (self (accept_step P c' s2)) = n /\ n <> -1).
Proof.
  intros s1 fd s2 Hent Hfd He Hr Hk Ht Hc.
  pose proof (accept_step_keeps_listen aContext s) as Hl. fold s1 in Hl.
  split.
  - rewrite (Process_read_eof aContext s bs k' Hent Hfd He Hr Hk Ht).
    fold s1 fd. by rewrite (Clear_session _ rc kc).
  - split; [done|]. split; [done|]. split; [done|].
    intros c' n k'' Hr' Hacc.
    assert (n <> -1) as Hn by (destruct Hacc as (?&?&?&?&?&?&?&?&?&?); done).
    split; [|done].
    unfold accept_step.
    replace (mListenSocket (self s2)) with (mListenSocket (self s)) by done.
    rewrite Hr'.
    destruct (InitializeSessionSocket_adopts s2 n k'') as (s3 & E & Hs3 & _).
    { by replace (mListenSocket (self s2)) with (mListenSocket (self s)). }
    by rewrite E.
Qed.

(** C8. A second process calls [Init] for a name while the lock on the lock
    file is held elsewhere, so that its [flock] fails with error number [e]:
    [Init] returns OTBR_ERROR_ERRNO, which is not the code of a repeated
    [Init], and [errno] is still [e] on return.  The calls made are the
    creation of the socket, the opening of the lock file and the [flock],
    none else: the socket path is neither unlinked nor bound.  The first
    process, going on after that, has its object unchanged. *)
Theorem lock_contention_is_errno (aNetIfName : string) (first second : St)
    (r1 : sysret) (k1 : K) (r2 : sysret) (k2 : K) (e : Z) (k3 : K) :
  let s := resume (kernel first) second in
  let lockfile := c_str (derived_path aNetIfName kSocketLockSuffix) in
  (String.length (derived_path aNetIfName kSocketSuffix)
   <= kMaxSocketFilenameLength P)%nat ->
  mListenSocket (self second) = -1 ->
  ksys (SocketWithCloseExec AF_UNIX SOCK_STREAM 0 kSocketNonBlock) (kernel first)
    = (r1, k1) ->
  rv r1 <> -1 ->
  ksys (sys_open lockfile (Z.lor (Z.lor O_CREAT O_RDONLY) O_CLOEXEC) 384) k1
    = (r2, k2) ->
  rv r2 <> -1 ->
  ksys (sys_flock (rv r2) (Z.lor LOCK_EX LOCK_NB)) k2 = (SysErr e, k3) ->
  exists s',
    Init P aNetIfName s = Ret OTBR_ERROR_ERRNO s' /\
    OTBR_ERROR_ERRNO <> OTBR_ERROR_INVALID_STATE /\
    errno s' = e /\
    syscalls_of (trace s') =
      syscalls_of (trace second) ++
      [SocketWithCloseExec AF_UNIX SOCK_STREAM 0 kSocketNonBlock;
       sys_open lockfile (Z.lor (Z.lor O_CREAT O_RDONLY) O_CLOEXEC) 384;
       sys_flock (rv r2) (Z.lor LOCK_EX LOCK_NB)] /\
    kernel s' = k3 /\
    self (resume (kernel s') first) = self first.
Proof.
  intros s lockfile Hlen Hl E1 H1 E2 H2 E3.
  pose proof Hlen as Hlen'. rewrite derived_path_lengths_agree in Hlen'.
  eexists. split.
  - unfold Init, CreateListenSocket, bind, gets, store, ret, Zne.
    subst s. cbn [self resume]. rewrite Hl, Z.eqb_refl.
    rewrite (sys_eq _ _ r1 k1) by exact E1.
    destruct (Z.eqb_spec (rv r1) (-1)); [exfalso; congruence|]. cbn [negb].
    rewrite (GetSocketFilename_ok _ _ _ Hlen').
    rewrite (sys_eq _ _ r2 k2) by exact E2.
    destruct (Z.eqb_spec (rv r2) (-1)); [exfalso; congruence|]. cbn [negb].
    rewrite (sys_eq _ _ (SysErr e) k3) by exact E3.
    cbn [rv Z.eqb Pos.eqb negb otbrError_is_none]. reflexivity.
  - split; [done|]. split; [done|]. split.
    + cbn [trace after_sys after_store resume].
      rewrite !syscalls_of_app. simpl. rewrite !app_nil_r.
      by rewrite <- !app_assoc.
    + done.
Qed.

(** ** Further properties of the code *)

(** *** GetSocketFilename *)

Lemma nul_free_app (a b : string) :
  nul_free (a ++ b)%string = nul_free a && nul_free b.
Proof.
  induction a as [|c a IH]; simpl; [done|].
  rewrite IH. by destruct (Ascii.eqb c zero).
Qed.

Lemma c_str_nul_free (a : string) : nul_free a = true -> c_str a = a.
Proof.
  induction a as [|c a IH]; simpl; [done|].
  destruct (Ascii.eqb c zero); simpl; [done|].
  intros H. by rewrite IH.
Qed.

Lemma derived_path_nul_free (n suffix : string) :
  nul_free n = true -> nul_free suffix = true ->
  c_str (derived_path n suffix) = derived_path n suffix.
Proof.
  intros Hn Hs. apply c_str_nul_free. unfold derived_path.
  rewrite !nul_free_app, Hs. destruct (string_empty n); [done|].
  by rewrite Hn.
Qed.

(** X1. [GetSocketFilename] treats the empty name as "wpan0".  It returns
    the path "/run/openthread-" + name + suffix, leaving the process as it
    was, exactly when 16 + the length of the name + the length of the suffix
    is at most sizeof(sun_path) - 1, and ends the process otherwise. *)
Theorem GetSocketFilename_accepts (n suffix : string) (s : St) :
  let name := if string_empty n then kDefaultNetIfName else n in
  GetSocketFilename P "" suffix s = GetSocketFilename P "wpan0" suffix s /\
  ((16 + String.length name + String.length suffix
    <= kMaxSocketFilenameLength P)%nat ->
   GetSocketFilename P n suffix s =
     Ret (kSocketBaseName ++ name ++ suffix)%string s) /\
  ((kMaxSocketFilenameLength P
    < 16 + String.length name + String.length suffix)%nat ->
   GetSocketFilename P n suffix s = Died (ArgError OTBR_ERROR_INVALID_ARGS) s).
Proof.
  intros name. split; [done|].
  pose proof (derived_path_length n suffix) as Hlen. fold name in Hlen. split.
  - intros H. rewrite GetSocketFilename_ok; [done|lia].
  - intros H. rewrite GetSocketFilename_too_long; [done|lia].
Qed.

(** *** Init *)

(** X2. A successful [Init] started without a listen descriptor and made
    exactly six system calls, in this order: the socket creation, the opening
    of the lock file, the exclusive non-blocking lock, the unlinking of the
    socket path, the binding of the new socket to that same path, untruncated,
    and [listen] with a backlog of 1.  The listen descriptor and the lock
    descriptor are then valid; the session and the consumer are untouched.
    For a name without NUL bytes the two files are "/run/openthread-" + name
    + ".lock" and + ".sock". *)
Theorem Init_success_calls (aNetIfName : string) (s s' : St) :
  Init P aNetIfName s = Ret OTBR_ERROR_NONE s' ->
  let lockfile := c_str (derived_path aNetIfName kSocketLockSuffix) in
  let socketfile := c_str (derived_path aNetIfName kSocketSuffix) in
  let l := mListenSocket (self s') in
  let lk := mDaemonLock (self s') in
  mListenSocket (self s) = -1 /\ l <> -1 /\ lk <> -1 /\
  syscalls_of (trace s') =
    syscalls_of (trace s) ++
    [SocketWithCloseExec AF_UNIX SOCK_STREAM 0 kSocketNonBlock;
     sys_open lockfile (Z.lor (Z.lor O_CREAT O_RDONLY) O_CLOEXEC) 384;
     sys_flock lk (Z.lor LOCK_EX LOCK_NB);
     sys_unlink socketfile;
     sys_bind l AF_UNIX socketfile;
     sys_listen l 1] /\
  mSessionSocket (self s') = mSessionSocket (self s) /\
  deps s' = deps s /\
  (nul_free aNetIfName = true ->
   lockfile = derived_path aNetIfName kSocketLockSuffix /\
   socketfile = derived_path aNetIfName kSocketSuffix).
Proof.
  intros H lockfile socketfile l lk. subst lockfile socketfile l lk.
  revert H. unfold_daemon. repeat case_step.
  all: intros H; try discriminate H.
  all: injection H as <-.
  fold (derived_path aNetIfName kSocketLockSuffix) in *.
  fold (derived_path aNetIfName kSocketSuffix) in *.
  apply Nat.leb_le in El0.
  rewrite (strncpy_keeps_checked_path _ _ El0).
  cbn [self trace after_sys after_store set_member mListenSocket mDaemonLock
       mSessionSocket deps].
  rewrite <- ?app_assoc, !syscalls_of_app. cbn [syscalls_of app].
  repeat split; try done.
  all: by apply derived_path_nul_free.
Qed.

(** X3. [Init] has four ways to end.  With a valid listen descriptor it
    returns OTBR_ERROR_INVALID_STATE and changes nothing.  Without one it
    returns OTBR_ERROR_NONE or OTBR_ERROR_ERRNO, or the process is ended with
    OTBR_ERROR_INVALID_ARGS, and that only for a name whose path is longer
    than sizeof(sun_path) - 1, after the socket has been created. *)
Theorem Init_results (aNetIfName : string) (s : St) :
  match Init P aNetIfName s with
  | Ret e s' =>
      (mListenSocket (self s) <> -1 /\ e = OTBR_ERROR_INVALID_STATE /\ s' = s) \/
      (mListenSocket (self s) = -1 /\
       (e = OTBR_ERROR_NONE \/ e = OTBR_ERROR_ERRNO))
  | Died w s' =>
      mListenSocket (self s) = -1 /\
      w = ArgError OTBR_ERROR_INVALID_ARGS /\
      (kMaxSocketFilenameLength P <
       String.length (derived_path aNetIfName kSocketSuffix))%nat /\
      mListenSocket (self s') <> -1
  end.
Proof.
  unfold_daemon. repeat case_step.
  all: try (left; done); try (right; split; [done|]; auto; fail).
  all: fold (derived_path aNetIfName kSocketLockSuffix) in *;
    fold (derived_path aNetIfName kSocketSuffix) in *.
  all: rewrite ?derived_path_lengths_agree in *.
  all: repeat match goal with
       | H : (_ <=? _)%nat = false |- _ => apply Nat.leb_gt in H
       end.
  all: done.
Qed.

(** X4. When [Init] returns OTBR_ERROR_ERRNO, its first call was the socket
    creation.  If that call failed, it was the only call and the object is
    still without a listen descriptor, so [Init] can be tried again.  If it
    succeeded, the failure came later: the new socket is kept as the listen
    descriptor, nothing has been closed, and every further [Init] is
    rejected with OTBR_ERROR_INVALID_STATE. *)
Theorem Init_failure_is_sticky (aNetIfName : string) (s s' : St) :
  Init P aNetIfName s = Ret OTBR_ERROR_ERRNO s' ->
  exists r rest,
    trace s' =
      trace s ++
      EvSys (SocketWithCloseExec AF_UNIX SOCK_STREAM 0 kSocketNonBlock) r :: rest /\
    mListenSocket (self s') = rv r /\
    count_calls is_close rest = 0%nat /\
    (rv r = -1 -> syscalls_of rest = []) /\
    (rv r <> -1 ->
     forall n', Init P n' s' = Ret OTBR_ERROR_INVALID_STATE s').
Proof.
  revert s'. unfold_daemon. repeat case_step.
  all: intros s' H; try discriminate H.
  all: injection H as <-.
  all: eexists _, _; split;
    [cbn [trace after_sys after_store]; rewrite <- ?app_assoc; reflexivity|].
  all: split; [done|]. all: split; [done|]. all: split; [done|].
  all: intros Hr n'; apply Init_when_initialized; done.
Qed.

(** *** Clear, Deinit and UpdateFdSet *)

(** X5. [Clear] (and so [Deinit]) closes the session descriptor at most
    once and leaves no session, whether or not [close] succeeds; done a
    second time it makes no call and changes nothing. *)
Theorem Clear_idempotent (s : St) :
  exists s' new,
    Clear s = Ret tt s' /\ Deinit s = Ret tt s' /\
    trace s' = trace s ++ new /\
    mSessionSocket (self s') = -1 /\
    syscalls_of new =
      (if mSessionSocket (self s) =? -1 then []
       else [sys_close (mSessionSocket (self s))]) /\
    Clear s' = Ret tt s'.
Proof.
  unfold Deinit. unfold_daemon. repeat case_step.
  - exists s, []. rewrite app_nil_r. repeat split; try done.
    destruct (Z.eqb_spec (mSessionSocket (self s)) (-1)); done.
  - eexists _, _. split; [reflexivity|]. split; [reflexivity|].
    split; [cbn [trace after_sys after_store]; rewrite <- app_assoc; reflexivity|].
    done.
Qed.

(** X6. [UpdateFdSet] puts the listen descriptor and the session descriptor,
    each if it is not -1, into the read set and into the error set, and
    nothing else: what was registered before stays, the lock descriptor and
    -1 are not added, and the two sets get the same additions. *)
Theorem UpdateFdSet_registers_valid (d : CliDaemon) (c : MainloopContext) (fd : Z) :
  let own :=
    (fd = mListenSocket d /\ mListenSocket d <> -1) \/
    (fd = mSessionSocket d /\ mSessionSocket d <> -1) in
  (fd ∈ mReadFdSet (UpdateFdSet d c) <-> fd ∈ mReadFdSet c \/ own) /\
  (fd ∈ mErrorFdSet (UpdateFdSet d c) <-> fd ∈ mErrorFdSet c \/ own) /\
  UpdateFdSet d (UpdateFdSet d c) = UpdateFdSet d c.
Proof.
  intros own. subst own. unfold UpdateFdSet, AddFdToSet, Zne.
  destruct (Z.eqb_spec (mListenSocket d) (-1)) as [El|El];
    destruct (Z.eqb_spec (mSessionSocket d) (-1)) as [Es|Es]; simpl.
  all: rewrite ?elem_of_union, ?elem_of_singleton.
  all: split; [intuition congruence|]; split; [intuition congruence|].
  all: destruct c as [rd er]; simpl; f_equal; apply set_eq; intros x;
    rewrite ?elem_of_union, ?elem_of_singleton; tauto.
Qed.

(** *** InitializeSessionSocket *)

Ltac in_list :=
  repeat first [apply list_elem_of_here | apply list_elem_of_further].


Lemma Z_land_lor_absorb (a c : Z) : Z.land (Z.lor a c) c = c.
Proof.
  apply Z.bits_inj'. intros i _. rewrite Z.land_spec, Z.lor_spec.
  by destruct (Z.testbit a i), (Z.testbit c i).
Qed.

(** X8. A descriptor becomes the session only after its descriptor flags
    were read and written back with FD_CLOEXEC added: the value given to
    F_SETFD has that bit set and keeps every bit F_GETFD returned, and both
    calls succeeded. *)
Theorem session_is_close_on_exec (s : St) :
  let s' := final (InitializeSessionSocket P s) in
  let n := mSessionSocket (self s') in
  n <> -1 ->
  exists new r2 r3,
    trace s' = trace s ++ new /\
    EvSys (sys_fcntl n F_GETFD 0) r2 ∈ new /\
    EvSys (sys_fcntl n F_SETFD (Z.lor (rv r2) FD_CLOEXEC)) r3 ∈ new /\
    rv r2 <> -1 /\ rv r3 <> -1 /\
    Z.land (Z.lor (rv r2) FD_CLOEXEC) FD_CLOEXEC = FD_CLOEXEC /\
    (forall i, Z.testbit (rv r2) i = true ->
               Z.testbit (Z.lor (rv r2) FD_CLOEXEC) i = true).
Proof.
  unfold_daemon. repeat case_step.
  all: try (exfalso; congruence).
  all: intros Hn; try done.
  all: eexists _, _, _; split;
    [cbn [trace after_sys after_store emit]; rewrite <- ?app_assoc; reflexivity|].
  all: split; [in_list|]. all: split; [in_list|].
  all: split; [done|]. all: split; [done|].
  all: split;
    [apply Z_land_lor_absorb
    |intros i Hi; rewrite Z.lor_spec, Hi; reflexivity].
Qed.

(** *** What Process and Init leave alone *)

(** X9. [Process] works on the session only: besides logging and calling
    the consumer it calls nothing but [accept], [fcntl], [close] and [read]
    (the latter always with the full buffer size), and [setsockopt] only on a
    build with SO_NOSIGPIPE; it stores nothing but [mSessionSocket].  The
    listen descriptor and the lock descriptor are the same afterwards. *)
Theorem Process_footprint (aContext : MainloopContext) (s : St) :
  let s' := final (Process P aContext s) in
  exists new,
    trace s' = trace s ++ new /\
    forallb (process_event P) new = true /\
    mListenSocket (self s') = mListenSocket (self s) /\
    mDaemonLock (self s') = mDaemonLock (self s).
Proof.
  destruct (InitializeSessionSocket_footprint s)
    as (s1 & new1 & E1 & Htr1 & Hf1 & Hl1 & Hk1).
  unfold_process. repeat first [rewrite E1 | case_step].
  all: try (exfalso; lia); try (exfalso; congruence).
  all: eexists; split;
    [cbn [trace after_sys after_store after_read after_input emit];
     rewrite ?Htr1, <- ?app_assoc; try reflexivity;
     symmetry; apply app_nil_r|].
  all: split; [rewrite ?forallb_app, ?Hf1; try solve_footprint; done|done].
Qed.

(** X10. [Init] works on the endpoint only: it makes none but the six calls
    that set the endpoint up (no [accept], [read], [close] or [fcntl]), logs
    nothing, does not call the consumer, and stores nothing but
    [mListenSocket] and [mDaemonLock]; the session is the same afterwards. *)
Theorem Init_footprint (aNetIfName : string) (s : St) :
  let s' := final (Init P aNetIfName s) in
  exists new,
    trace s' = trace s ++ new /\
    forallb init_event new = true /\
    mSessionSocket (self s') = mSessionSocket (self s) /\
    deps s' = deps s.
Proof.
  unfold_daemon. repeat case_step.
  all: eexists; split;
    [cbn [final trace after_sys after_store]; rewrite <- ?app_assoc;
     try reflexivity; symmetry; apply app_nil_r|].
  all: split; [try solve_footprint; done|done].
Qed.

(** *** Descriptors over whole runs *)

Lemma res_ok_app (R : resources) (a b : list event) :
  res_ok R (a ++ b) <-> res_ok R a /\ res_ok (foldl res_step R a) b.
Proof.
  revert R. induction a as [|e a IH]; intros R; simpl; [tauto|].
  rewrite IH. tauto.
Qed.

Lemma res_ok_at (tr pre post : list event) (e : event) :
  res_ok no_resources tr -> tr = pre ++ e :: post ->
  res_safe (resources_of pre) e.
Proof.
  intros H ->. apply res_ok_app in H as [_ [H _]]. exact H.
Qed.

Ltac solve_pending :=
  let x := fresh "x" in let Hx := fresh "Hx" in
  intros x Hx;
  rewrite ?list_elem_of_filter, ?elem_of_cons, ?elem_of_nil in Hx;
  repeat match goal with
  | H : _ /\ _ |- _ => destruct H
  | H : _ \/ _ |- _ => destruct H
  | H : ?y ∈ ?p, Hp : forall z, z ∈ ?p -> _ |- _ => apply Hp in H
  end; subst; try (split; congruence); try congruence; try done.

Ltac simpl_resources :=
  cbn [foldl res_step res_ok res_safe app
       accepted pending session_now sockets lockfiles] in *.

Ltac solve_resources :=
  let Hc := fresh "Hc" in
  intros Hc; unfold resources_consistent, resources_of in *;
  cbn [trace self after_sys after_store after_read after_input emit set_member
       mSessionSocket mListenSocket mDaemonLock] in *;
  destruct Hc as (Hok & Hcur & Hacc & Hpend & Hsock & Hlock & Hll);
  rewrite <- ?app_assoc; rewrite ?res_ok_app, ?foldl_app;
  destruct (foldl res_step no_resources (trace _)) as [acc pend cur socks locks];
  simpl_resources; subst; simpl_resources;
  repeat match goal with
  | |- context [?a =? ?b] =>
      destruct (Z.eqb_spec a b); try congruence; simpl_resources
  end;
  repeat match goal with
  | H : ?A -> _, HA : ?A |- _ =>
      match type of A with Prop => specialize (H HA) end
  end;
  repeat match goal with |- _ /\ _ => split end;
  try done; auto;
  try (rewrite ?elem_of_cons; auto; fail);
  try solve_pending;
  try (exfalso; congruence).

Lemma InitializeSessionSocket_resources (s : St) :
  exists s',
    InitializeSessionSocket P s = Ret tt s' /\
    (resources_consistent s -> resources_consistent s').
Proof.
  unfold_daemon. repeat case_step.
  all: try (exfalso; congruence).
  all: eexists; split; [reflexivity|].
  all: solve_resources.
Qed.

Lemma Process_resources (aContext : MainloopContext) (s : St) :
  resources_consistent s ->
  resources_consistent (final (Process P aContext s)).
Proof.
  destruct (InitializeSessionSocket_resources s) as (s1 & E1 & Hs1).
  unfold_process. repeat first [rewrite E1 | case_step].
  all: try (exfalso; lia); try (exfalso; congruence).
  all: first [done | exact Hs1 | solve [clear Hs1; solve_resources]
             | intros Hc; apply Hs1 in Hc; revert Hc; clear Hs1;
               solve [solve_resources]].
Qed.

Lemma Init_resources (aNetIfName : string) (s : St) :
  resources_consistent s ->
  resources_consistent (final (Init P aNetIfName s)).
Proof.
  unfold_daemon. repeat case_step.
  all: first [done | solve [solve_resources]].
Qed.

Lemma Deinit_resources (s : St) :
  resources_consistent s -> resources_consistent (final (Deinit s)).
Proof.
  unfold Deinit. unfold_daemon. repeat case_step.
  all: first [done | solve [solve_resources]].
Qed.

(** What every operation keeps holds at the end of every run. *)
Lemma run_ops_invariant (I : St -> Prop) (os : list op) (s : St) :
  (forall o x, I x -> I (final (run_op P o x))) ->
  I s -> I (final (run_ops P os s)).
Proof.
  intros Hstep. revert s. induction os as [|o os IH]; intros s Hs; [done|].
  specialize (Hstep o s Hs). simpl. unfold bind.
  destruct (run_op P o s) as [[] s1|w s1]; simpl in *; [by apply IH|done].
Qed.

Lemma run_op_resources (o : op) (s : St) :
  resources_consistent s -> resources_consistent (final (run_op P o s)).
Proof.
  destruct o as [n| |c]; intros Hs.
  - pose proof (Init_resources n s Hs) as H. unfold run_op, bind, ret.
    by destruct (Init P n s).
  - by apply Deinit_resources.
  - by apply Process_resources.
Qed.

Lemma run_resources (k : K) (d : D) (os : list op) :
  resources_consistent (final (run_ops P os (boot k d))).
Proof.
  apply run_ops_invariant; [intros o x; apply run_op_resources|].
  unfold resources_consistent. cbn.
  repeat match goal with |- _ /\ _ => split end; try done.
  intros y Hy. by apply elem_of_nil in Hy.
Qed.

Lemma accepted_valid (tr : list event) (R : resources) :
  -1 ∉ accepted R -> -1 ∉ accepted (foldl res_step R tr).
Proof.
  revert R. induction tr as [|e tr IH]; intros R HR; [done|].
  simpl. apply IH. destruct e as [[] r| | [] | |]; simpl; try done.
  all: destruct (Z.eqb_spec (rv r) (-1)); simpl; try done.
  rewrite elem_of_cons. intros [E|E]; [congruence|done].
Qed.

(** X11. In every run of operations on a freshly constructed object, each
    [close] is on a valid descriptor that an [accept] earlier in the run
    handed out: the object closes nothing but connections it accepted, and in
    particular makes no [close] for the listen socket or the lock file. *)
Theorem closes_only_accepted (k : K) (d : D) (os : list op)
    (pre post : list event) (fd : Z) (r : sysret) :
  trace (final (run_ops P os (boot k d))) = pre ++ EvSys (sys_close fd) r :: post ->
  fd ∈ accepted (resources_of pre) /\ fd <> -1.
Proof.
  intros Ht. destruct (run_resources k d os) as (Hok & _).
  pose proof (res_ok_at _ _ _ _ Hok Ht) as Hsafe. simpl in Hsafe.
  split; [done|]. intros ->. revert Hsafe.
  apply accepted_valid. simpl. apply not_elem_of_nil.
Qed.

(** X12. In every run, each [read] is on the descriptor [mSessionSocket]
    holds at that moment, which is valid and was handed out by an [accept]
    earlier in the run. *)
Theorem reads_only_from_session (k : K) (d : D) (os : list op)
    (pre post : list event) (fd : Z) (n : nat) (rd : readret) :
  trace (final (run_ops P os (boot k d))) = pre ++ EvRead fd n rd :: post ->
  fd = session_now (resources_of pre) /\ fd <> -1 /\
  fd ∈ accepted (resources_of pre).
Proof.
  intros Ht. destruct (run_resources k d os) as (Hok & _).
  exact (res_ok_at _ _ _ _ Hok Ht).
Qed.


(** X14. Over a whole run at most one socket creation and at most one
    opening of the lock file succeed, however often [Init] is called, and the
    descriptors they handed out are the ones [mListenSocket] and
    [mDaemonLock] hold; a lock descriptor is never held without a listen
    descriptor. *)
Theorem endpoint_created_once (k : K) (d : D) (os : list op) :
  let s := final (run_ops P os (boot k d)) in
  let R := resources_of (trace s) in
  sockets R = (if mListenSocket (self s) =? -1 then []
               else [mListenSocket (self s)]) /\
  lockfiles R = (if mDaemonLock (self s) =? -1 then []
                 else [mDaemonLock (self s)]) /\
  (length (sockets R) <= 1)%nat /\ (length (lockfiles R) <= 1)%nat /\
  (mListenSocket (self s) = -1 -> mDaemonLock (self s) = -1).
Proof.
  intros s R.
  destruct (run_resources k d os) as (_ & _ & _ & _ & Hs & Hl & Hll).
  fold s in Hs, Hl, Hll. fold R in Hs, Hl.
  split; [done|]. split; [done|]. rewrite Hs, Hl.
  split; [destruct (mListenSocket (self s) =? -1); simpl; lia|].
  split; [destruct (mDaemonLock (self s) =? -1); simpl; lia|done].
Qed.

(** *** Consumer failures and accepts, per invocation and over runs *)

Lemma input_warnings_app (a b : list event) :
  input_warnings (a ++ b) = input_warnings a ++ input_warnings b.
Proof.
  induction a as [|e a IH]; simpl; [done|].
  destruct e as [| | |[] fmt []|]; simpl; rewrite ?IH; try done.
  by destruct (String.eqb fmt _).
Qed.

Lemma failed_inputs_app (a b : list event) :
  failed_inputs (a ++ b) = failed_inputs a ++ failed_inputs b.
Proof.
  induction a as [|e a IH]; simpl; [done|].
  destruct e as [| | | |buf e]; simpl; rewrite ?IH; try done.
  by destruct (otbrError_is_none e).
Qed.

Lemma read_count_app (a b : list event) :
  read_count (a ++ b) = (read_count a + read_count b)%nat.
Proof.
  induction a as [|e a IH]; simpl; [done|].
  destruct e; simpl; by rewrite ?IH.
Qed.

Lemma count_calls_app (f : syscall -> bool) (a b : list event) :
  count_calls f (a ++ b) = (count_calls f a + count_calls f b)%nat.
Proof.
  unfold count_calls. by rewrite syscalls_of_app, filter_app, length_app.
Qed.

Lemma InitializeSessionSocket_counts (s : St) :
  exists s' new,
    InitializeSessionSocket P s = Ret tt s' /\
    trace s' = trace s ++ new /\
    input_warnings new = [] /\ failed_inputs new = [] /\
    count_calls is_accept new = 1%nat /\ read_count new = 0%nat.
Proof.
  unfold_daemon. repeat case_step.
  all: try (exfalso; congruence).
  all: eexists _, _; split; [reflexivity|].
  all: split;
    [cbn [trace after_sys after_store emit]; rewrite <- ?app_assoc; reflexivity|].
  all: done.
Qed.

Lemma Process_counts (aContext : MainloopContext) (s : St) :
  exists new,
    trace (final (Process P aContext s)) = trace s ++ new /\
    input_warnings new = failed_inputs new /\
    count_calls is_accept new =
      (if Zne (mListenSocket (self s)) (-1)
          && negb (FD_ISSET (mListenSocket (self s)) (mErrorFdSet aContext))
          && FD_ISSET (mListenSocket (self s)) (mReadFdSet aContext)
       then 1 else 0)%nat /\
    (read_count new <= 1)%nat.
Proof.
  destruct (InitializeSessionSocket_counts s)
    as (s1 & new1 & E1 & Htr1 & Hw1 & Hf1 & Hc1 & Hr1).
  unfold_process. repeat first [rewrite E1 | case_step].
  all: try (exfalso; lia); try (exfalso; congruence).
  all: eexists; split;
    [cbn [trace after_sys after_store after_read after_input emit];
     rewrite ?Htr1, <- ?app_assoc; try reflexivity;
     symmetry; apply app_nil_r|].
  all: rewrite ?input_warnings_app, ?failed_inputs_app, ?count_calls_app,
         ?read_count_app, ?Hw1, ?Hf1, ?Hc1, ?Hr1.
  all: cbn [input_warnings failed_inputs read_count app].
  all: repeat match goal with
       | H : otbrError_is_none _ = _ |- _ => rewrite H
       end.
  all: split; [done|]. all: split; [done|simpl; lia].
Qed.

Lemma op_counts (o : op) (s : St) :
  exists new,
    trace (final (run_op P o s)) = trace s ++ new /\
    input_warnings new = failed_inputs new.
Proof.
  destruct o as [n| |c].
  - cut (exists new, trace (final (Init P n s)) = trace s ++ new /\
                     input_warnings new = failed_inputs new).
    { unfold run_op, bind, ret. by destruct (Init P n s). }
    unfold_daemon. repeat case_step.
    all: eexists; split;
      [cbn [final trace after_sys after_store]; rewrite <- ?app_assoc;
       try reflexivity; symmetry; apply app_nil_r|done].
  - unfold run_op, Deinit. unfold_daemon. repeat case_step.
    all: eexists; split;
      [cbn [final trace after_sys after_store]; rewrite <- ?app_assoc;
       try reflexivity; symmetry; apply app_nil_r|done].
  - destruct (Process_counts c s) as (new & Ht & Hw & _).
    by exists new.
Qed.

(** X15. Over every run of operations, from any state, the warnings
    "Failed to input command line" that are logged are, one for one and in
    order, the errors the consumer returned: each failure of the consumer is
    logged once with its error code, and no such warning is logged without
    one. *)
Theorem consumer_failures_logged (os : list op) (s : St) :
  exists new,
    trace (final (run_ops P os s)) = trace s ++ new /\
    input_warnings new = failed_inputs new.
Proof.
  apply (run_ops_invariant
           (fun x => exists new, trace x = trace s ++ new /\
                                input_warnings new = failed_inputs new)).
  - intros o x (n1 & Ht1 & Hw1). destruct (op_counts o x) as (n2 & Ht2 & Hw2).
    exists (n1 ++ n2). rewrite Ht2, Ht1, app_assoc. split; [done|].
    by rewrite input_warnings_app, failed_inputs_app, Hw1, Hw2.
  - exists []. by rewrite app_nil_r.
Qed.

(** X16. One invocation of [Process] calls [accept] exactly once when the
    listen descriptor is valid, not in the error set and in the read set,
    and not at all otherwise; and it reads at most once.  So at most one
    connection is taken and at most one buffer of input is handled per
    invocation, however much is waiting. *)
Theorem Process_one_accept_one_read (aContext : MainloopContext) (s : St) :
  exists new,
    trace (final (Process P aContext s)) = trace s ++ new /\
    count_calls is_accept new =
      (if Zne (mListenSocket (self s)) (-1)
          && negb (FD_ISSET (mListenSocket (self s)) (mErrorFdSet aContext))
          && FD_ISSET (mListenSocket (self s)) (mReadFdSet aContext)
       then 1 else 0)%nat /\
    (read_count new <= 1)%nat.
Proof.
  destruct (Process_counts aContext s) as (new & Ht & _ & Hc & Hr).
  by exists new.
Qed.

(** X17. An invocation of [Process] with none of the object's descriptors
    in the sets (neither the listen descriptor nor the session descriptor,
    as far as they are valid, in the read set or in the error set) makes no
    call and changes nothing. *)
Theorem Process_nothing_ready (aContext : MainloopContext) (s : St) :
  (forall fd, fd ∈ mReadFdSet aContext \/ fd ∈ mErrorFdSet aContext ->
     ~ ((fd = mListenSocket (self s) /\ mListenSocket (self s) <> -1) \/
        (fd = mSessionSocket (self s) /\ mSessionSocket (self s) <> -1))) ->
  Process P aContext s = Ret tt s.
Proof.
  intros Hnone.
  assert (forall fd set, (set = mReadFdSet aContext \/ set = mErrorFdSet aContext) ->
            (fd = mListenSocket (self s) /\ mListenSocket (self s) <> -1) \/
            (fd = mSessionSocket (self s) /\ mSessionSocket (self s) <> -1) ->
            FD_ISSET fd set = false) as Hoff.
  { intros fd set Hset Hown. unfold FD_ISSET. apply bool_decide_eq_false.
    intros Hin. apply (Hnone fd); [|done]. destruct Hset as [-> | ->]; auto. }
  destruct (decide (mListenSocket (self s) = -1)) as [El|El].
  { by apply Process_uninitialized. }
  assert (accept_step P aContext s = s) as Ha.
  { unfold accept_step. rewrite Hoff; auto. }
  destruct (decide (mSessionSocket (self s) = -1)) as [Es|Es].
  - rewrite <- Ha at 2. apply Process_no_session; [|by rewrite Ha].
    split; [done|]. apply Hoff; auto.
  - rewrite <- Ha at 2. apply Process_session_idle.
    + split; [done|]. apply Hoff; auto.
    + rewrite Ha. apply Hoff; auto.
    + rewrite Ha. apply Hoff; auto.
Qed.


(** X18. [Process] ends the process in two situations only: the listen
    descriptor is in the error set, and then nothing has been done; or the
    last thing done was a [read] that failed.  The message is the text of
    the current errno in both. *)
Theorem Process_dies_only (aContext : MainloopContext) (s s' : St) (w : logarg) :
  Process P aContext s = Died w s' ->
  w = ArgErrno (errno s') /\
  mListenSocket (self s) <> -1 /\
  ((FD_ISSET (mListenSocket (self s)) (mErrorFdSet aContext) = true /\ s' = s) \/
   (FD_ISSET (mListenSocket (self s)) (mErrorFdSet aContext) = false /\
    exists e, last (trace s') =
                Some (EvRead (mSessionSocket (self s')) (kCliMaxLineLength P)
                        (ReadErr e)) /\
              errno s' = e)).
Proof.
  destruct (InitializeSessionSocket_summary s) as (s1 & new1 & E1 & _).
  revert s' w. unfold_process. repeat first [rewrite E1 | case_step].
  all: try (exfalso; lia).
  all: intros s' w H; try discriminate H.
  all: injection H as <- <-.
  all: split; [done|]. all: split; [done|].
  all: first [left; done | right; split; [done|]; eexists;
              cbn [trace after_read]; rewrite last_snoc; done].
Qed.

Lemma quiet_op (o : op) (s : St) :
  (forall buf d, (InputCommandLine buf d).1 = OTBR_ERROR_NONE) ->
  exists new,
    trace (final (run_op P o s)) = trace s ++ new /\
    failed_inputs new = [] /\ input_warnings new = [].
Proof.
  intros Hq. destruct (InitializeSessionSocket_counts s)
    as (s1 & new1 & E1 & Htr1 & Hw1 & Hf1 & _).
  destruct o as [n| |c].
  - cut (exists new, trace (final (Init P n s)) = trace s ++ new /\
                     failed_inputs new = [] /\ input_warnings new = []).
    { unfold run_op, bind, ret. by destruct (Init P n s). }
    unfold_daemon. repeat case_step.
    all: eexists; split;
      [cbn [final trace after_sys after_store]; rewrite <- ?app_assoc;
       try reflexivity; symmetry; apply app_nil_r|done].
  - unfold run_op, Deinit. unfold_daemon. repeat case_step.
    all: eexists; split;
      [cbn [final trace after_sys after_store]; rewrite <- ?app_assoc;
       try reflexivity; symmetry; apply app_nil_r|done].
  - unfold_process. repeat first [rewrite E1 | case_step].
    all: try (exfalso; lia); try (exfalso; congruence).
    all: eexists; split;
      [cbn [trace after_sys after_store after_read after_input emit];
       rewrite ?Htr1, <- ?app_assoc; try reflexivity;
       symmetry; apply app_nil_r|].
    all: rewrite ?failed_inputs_app, ?input_warnings_app, ?Hf1, ?Hw1;
      cbn [failed_inputs input_warnings app].
    all: repeat match goal with
         | H : InputCommandLine ?b ?d = (?o, _) |- _ =>
             let Hx := fresh in
             pose proof (Hq b d) as Hx; rewrite H in Hx; cbn in Hx; subst o;
             clear H
         end.
    all: done.
Qed.

Lemma quiet_consumer (os : list op) (s : St) :
  (forall buf d, (InputCommandLine buf d).1 = OTBR_ERROR_NONE) ->
  exists new,
    trace (final (run_ops P os s)) = trace s ++ new /\
    failed_inputs new = [] /\ input_warnings new = [].
Proof.
  intros Hq.
  apply (run_ops_invariant
           (fun x => exists new, trace x = trace s ++ new /\
                                failed_inputs new = [] /\ input_warnings new = [])).
  - intros o x (n1 & Ht1 & Hf1 & Hw1).
    destruct (quiet_op o x Hq) as (n2 & Ht2 & Hf2 & Hw2).
    exists (n1 ++ n2). rewrite Ht2, Ht1, app_assoc. split; [done|].
    by rewrite failed_inputs_app, input_warnings_app, Hf1, Hf2, Hw1, Hw2.
  - exists []. by rewrite app_nil_r.
Qed.

End Properties.

(** * Concrete runs *)

(** C5 on a running endpoint with session 5. *)
Lemma Init_rejected_witness :
  let s := running (script init_answers []) 5 in
  mListenSocket (self s) <> -1 /\
  Init linux "wpan0" s = Ret OTBR_ERROR_INVALID_STATE s.
Proof.
  intros s.
  assert (mListenSocket (self s) <> -1) as H by (intros E; discriminate E).
  split; [exact H|].
  exact (proj1 (Init_rejected_when_initialized linux "wpan0" s H)).
Defined.

(** C10 with session 5 active and [accept] failing with EMFILE (24). *)
Lemma failed_accept_witness :
  let s := running (script [SysErr 24; SysOk 0] []) 5 in
  ksys (sys_accept (mListenSocket (self s))) (kernel s)
    = (SysErr 24, script [SysOk 0] []) /\
  rv (SysErr 24) = -1 /\
  mSessionSocket (self (final (InitializeSessionSocket linux s))) = -1.
Proof.
  intros s.
  assert (ksys (sys_accept (mListenSocket (self s))) (kernel s)
          = (SysErr 24, script [SysOk 0] [])) as Hk by reflexivity.
  split; [exact Hk|]. split; [reflexivity|].
  destruct (failed_accept_clears_session linux s (SysErr 24) (script [SysOk 0] [])
              Hk eq_refl) as [E (s' & Ec & Hs & _)].
  rewrite E, Ec. exact Hs.
Defined.

(** C1 as the specification words it fails: for a name whose paths have 108 bytes the
    socket is created, and stored in the object, before the length check ends
    the process. *)
Lemma socket_created_before_length_check :
  (kMaxSocketFilenameLength linux <
   String.length (derived_path long_name kSocketSuffix))%nat /\
  CreateListenSocket linux long_name (boot (script [SysOk 3] []) ([] : recorder)) =
  Died (ArgError OTBR_ERROR_INVALID_ARGS)
    {| kernel := script [] []; deps := []; errno := 0;
       trace := [EvSys (SocketWithCloseExec AF_UNIX SOCK_STREAM 0 kSocketNonBlock)
                   (SysOk 3);
                 EvStore MListenSocket 3];
       self := {| mListenSocket := 3; mDaemonLock := -1; mSessionSocket := -1 |} |}.
Proof. split; [vm_compute; lia|reflexivity]. Qed.

(** C1 as the code has it, on the same input. *)
Lemma CreateListenSocket_path_too_long_witness :
  let s := boot (script [SysOk 3] []) ([] : recorder) in
  (kMaxSocketFilenameLength linux <
   String.length (derived_path long_name kSocketSuffix))%nat /\
  ksys (SocketWithCloseExec AF_UNIX SOCK_STREAM 0 kSocketNonBlock) (kernel s)
    = (SysOk 3, script [] []) /\
  syscalls_of (trace (final (CreateListenSocket linux long_name s))) =
    [SocketWithCloseExec AF_UNIX SOCK_STREAM 0 kSocketNonBlock].
Proof.
  intros s.
  assert (kMaxSocketFilenameLength linux <
          String.length (derived_path long_name kSocketSuffix))%nat as H
    by (vm_compute; lia).
  assert (ksys (SocketWithCloseExec AF_UNIX SOCK_STREAM 0 kSocketNonBlock)
            (kernel s) = (SysOk 3, script [] [])) as Hk by reflexivity.
  split; [exact H|]. split; [exact Hk|].
  destruct (CreateListenSocket_path_too_long linux long_name s (SysOk 3)
              (script [] []) H Hk) as (E & Ht & _).
  rewrite E. exact Ht.
Defined.

(** C3 as the specification words it fails: after a successful [Init] and a [Deinit]
    the listen descriptor is still 3 and [Init] is rejected, although the
    kernel would have let every call of a second [Init] succeed. *)
Lemma Deinit_leaves_endpoint_initialized :
  exists s1 s2,
    Init linux "wpan0" (boot (script (init_answers ++ init_answers) [])
                          ([] : recorder)) = Ret OTBR_ERROR_NONE s1 /\
    Deinit s1 = Ret tt s2 /\
    mListenSocket (self s2) = 3 /\
    answers (kernel s2) = init_answers /\
    Init linux "wpan0" s2 = Ret OTBR_ERROR_INVALID_STATE s2.
Proof. eexists _, _. repeat split; reflexivity. Qed.

(** C3 as the code has it, for "wpan0" on a fresh object: after [Init] a
    client is accepted as descriptor 5, [Deinit] closes it, and the endpoint
    is as [Init] left it. *)
Lemma Init_succeeds_once_witness :
  let rest := [SysOk 5; SysOk 0; SysOk 0; SysOk 0] in
  let s := boot (script (init_answers ++ rest) []) ([] : recorder) in
  let os := [OpProcess (ready [3] []); OpDeinit] in
  (String.length (derived_path "wpan0" kSocketSuffix)
   <= kMaxSocketFilenameLength linux)%nat /\
  mListenSocket (self s) = -1 /\
  serves_Init "wpan0" (kernel s) 3 4 (script rest []) /\
  exists s1, Init linux "wpan0" s = Ret OTBR_ERROR_NONE s1 /\
    mListenSocket (self (final (run_ops linux os s1))) = 3 /\
    mDaemonLock (self (final (run_ops linux os s1))) = 4 /\
    Init linux "wpan0" (final (run_ops linux os s1))
      = Ret OTBR_ERROR_INVALID_STATE (final (run_ops linux os s1)).
Proof.
  intros rest s os.
  assert (String.length (derived_path "wpan0" kSocketSuffix)
          <= kMaxSocketFilenameLength linux)%nat as Hlen by (vm_compute; lia).
  assert (serves_Init "wpan0" (kernel s) 3 4 (script rest [])) as Hk.
  { unfold serves_Init. do 11 eexists.
    repeat match goal with |- _ /\ _ => split end;
      first [reflexivity | intros E; discriminate E]. }
  split; [exact Hlen|]. split; [reflexivity|]. split; [exact Hk|].
  assert (mListenSocket (self s) = -1) as Hl by reflexivity.
  destruct (Init_succeeds_once linux "wpan0" s 3 4 (script rest []) Hlen Hl Hk)
    as (s1 & E & _ & _ & _ & _ & _ & _ & Hall).
  destruct (Hall os "wpan0"%string) as (H3 & H4 & _ & Hrej).
  exists s1. split; [exact E|]. split; [exact H3|]. split; [exact H4|exact Hrej].
Defined.




(** C6 on a running endpoint with session 5: the listen descriptor in the
    error set, the session descriptor in the error set, a read failing with
    ECONNRESET (104). *)
Lemma Process_failures_witness :
  let s := running (script [SysOk 0] [ReadErr 104]) 5 in
  mListenSocket (self s) <> -1 /\
  Process linux (ready [] [3]) s = Died (ArgErrno 0) s /\
  (exists s2 rc, Process linux (ready [] [5]) s = Ret tt s2 /\
     mSessionSocket (self s2) = -1 /\ mListenSocket (self s2) = 3 /\
     trace s2 = trace (accept_step linux (ready [] [5]) s) ++
                [EvSys (sys_close 5) rc; EvStore MSessionSocket (-1)]) /\
  (exists s2, Process linux (ready [5] []) s = Died (ArgErrno 104) s2 /\
     mSessionSocket (self s2) = 5).
Proof.
  intros s.
  assert (mListenSocket (self s) <> -1) as H by (intros E; discriminate E).
  split; [exact H|]. split; [|split].
  - exact (proj1 (Process_failures_bifurcated linux (ready [] [3]) s H) eq_refl).
  - assert (mSessionSocket (self (accept_step linux (ready [] [5]) s)) <> -1) as H5
      by (intros E; discriminate E).
    destruct (proj2 (Process_failures_bifurcated linux (ready [] [5]) s H) eq_refl H5)
      as [Hc _].
    destruct (Hc eq_refl) as (s2 & E & _ & Hs & Hl & _ & _ & rc & _ & Ht & _).
    exists s2, rc. split; [exact E|]. split; [exact Hs|]. split; [exact Hl|exact Ht].
  - assert (mSessionSocket (self (accept_step linux (ready [5] []) s)) <> -1) as H5
      by (intros E; discriminate E).
    destruct (proj2 (Process_failures_bifurcated linux (ready [5] []) s H) eq_refl H5)
      as [_ Hr].
    eexists. split; [exact (Hr eq_refl eq_refl 104 (script [SysOk 0] []) eq_refl)|].
    reflexivity.
Defined.

(** C7: the peer of session 5 closes; afterwards a connection is accepted as
    descriptor 6. *)
Lemma peer_close_witness :
  let s := running (script [SysOk 0; SysOk 6; SysOk 0; SysOk 0] [ReadData []]) 5 in
  let c := ready [5] [] in
  let s1 := accept_step linux c s in
  let fd := mSessionSocket (self s1) in
  let kc := script [SysOk 6; SysOk 0; SysOk 0] [] in
  entered c s /\
  fd <> -1 /\
  FD_ISSET fd (mErrorFdSet c) = false /\
  FD_ISSET fd (mReadFdSet c) = true /\
  kread fd (kCliMaxLineLength linux) (kernel s1)
    = (ReadData [], script [SysOk 0; SysOk 6; SysOk 0; SysOk 0] []) /\
  take (kCliMaxLineLength linux) ([] : list byte) = [] /\
  ksys (sys_close fd) (script [SysOk 0; SysOk 6; SysOk 0; SysOk 0] []) = (SysOk 0, kc) /\
  accepts linux kc 3 6 (script [] []) /\
  exists s2, Process linux c s = Ret tt s2 /\
    mSessionSocket (self s2) = -1 /\
    mSessionSocket (self (accept_step linux (ready [3] []) s2)) = 6.
Proof.
  intros s c s1 fd kc.
  assert (entered c s) as H1 by (split; [intros E; discriminate E|reflexivity]).
  assert (fd <> -1) as H2 by (intros E; discriminate E).
  assert (FD_ISSET fd (mErrorFdSet c) = false) as H3 by reflexivity.
  assert (FD_ISSET fd (mReadFdSet c) = true) as H4 by reflexivity.
  assert (kread fd (kCliMaxLineLength linux) (kernel s1)
          = (ReadData [], script [SysOk 0; SysOk 6; SysOk 0; SysOk 0] [])) as H5
    by reflexivity.
  assert (take (kCliMaxLineLength linux) ([] : list byte) = []) as H6 by reflexivity.
  assert (ksys (sys_close fd) (script [SysOk 0; SysOk 6; SysOk 0; SysOk 0] [])
          = (SysOk 0, kc)) as H7 by reflexivity.
  assert (accepts linux kc 3 6 (script [] [])) as H8.
  { unfold accepts. do 6 eexists.
    repeat match goal with |- _ /\ _ => split end;
      first [reflexivity | intros E; discriminate E]. }
  destruct (peer_close_clears_session linux c s [] _ (SysOk 0) kc
              H1 H2 H3 H4 H5 H6 H7) as (E & Hs & _ & _ & Hacc).
  repeat match goal with |- _ /\ _ => split end; try assumption.
  eexists. split; [exact E|]. split; [exact Hs|].
  exact (proj1 (Hacc (ready [3] []) 6 (script [] []) eq_refl H8)).
Defined.

(** C8: the second daemon gets socket 5 and lock file descriptor 6, and its
    [flock] fails with EWOULDBLOCK (11). *)
Lemma lock_contention_witness :
  let first := running (script [SysOk 5; SysOk 6; SysErr 11] []) 7 in
  let second := boot (script [] []) ([] : recorder) in
  let s := resume (kernel first) second in
  (String.length (derived_path "wpan0" kSocketSuffix)
   <= kMaxSocketFilenameLength linux)%nat /\
  mListenSocket (self second) = -1 /\
  ksys (SocketWithCloseExec AF_UNIX SOCK_STREAM 0 kSocketNonBlock) (kernel first)
    = (SysOk 5, script [SysOk 6; SysErr 11] []) /\
  rv (SysOk 5) <> -1 /\
  ksys (sys_open (c_str (derived_path "wpan0" kSocketLockSuffix))
          (Z.lor (Z.lor O_CREAT O_RDONLY) O_CLOEXEC) 384)
       (script [SysOk 6; SysErr 11] []) = (SysOk 6, script [SysErr 11] []) /\
  rv (SysOk 6) <> -1 /\
  ksys (sys_flock (rv (SysOk 6)) (Z.lor LOCK_EX LOCK_NB)) (script [SysErr 11] [])
    = (SysErr 11, script [] []) /\
  exists s', Init linux "wpan0" s = Ret OTBR_ERROR_ERRNO s' /\ errno s' = 11 /\
    self (resume (kernel s') first) =
      {| mListenSocket := 3; mDaemonLock := 4; mSessionSocket := 7 |}.
Proof.
  intros first second s.
  assert (String.length (derived_path "wpan0" kSocketSuffix)
          <= kMaxSocketFilenameLength linux)%nat as H1 by (vm_compute; lia).
  assert (mListenSocket (self second) = -1) as H2 by reflexivity.
  assert (ksys (SocketWithCloseExec AF_UNIX SOCK_STREAM 0 kSocketNonBlock)
            (kernel first) = (SysOk 5, script [SysOk 6; SysErr 11] [])) as H3
    by reflexivity.
  assert (rv (SysOk 5) <> -1) as H4 by (intros E; discriminate E).
  assert (ksys (sys_open (c_str (derived_path "wpan0" kSocketLockSuffix))
                  (Z.lor (Z.lor O_CREAT O_RDONLY) O_CLOEXEC) 384)
               (script [SysOk 6; SysErr 11] []) = (SysOk 6, script [SysErr 11] []))
    as H5 by reflexivity.
  assert (rv (SysOk 6) <> -1) as H6 by (intros E; discriminate E).
  assert (ksys (sys_flock (rv (SysOk 6)) (Z.lor LOCK_EX LOCK_NB))
               (script [SysErr 11] []) = (SysErr 11, script [] [])) as H7
    by reflexivity.
  destruct (lock_contention_is_errno linux "wpan0" first second
              (SysOk 5) _ (SysOk 6) _ 11 _ H1 H2 H3 H4 H5 H6 H7)
    as (s' & E & _ & He & _ & _ & Hf).
  repeat match goal with |- _ /\ _ => split end; try assumption.
  exists s'. split; [exact E|]. split; [exact He|exact Hf].
Defined.

(** C9 as the specification words it fails: descriptor 5 is marked readable in the
    sets handed to [Process] (it was in use elsewhere when the sets were
    filled and has been closed since), [accept] hands out 5, and the new
    connection is read, and its bytes forwarded, in the same invocation. *)
Lemma accepted_connection_read_at_once :
  trace (final (Process linux (ready [3; 5] [])
                  (running (script [SysOk 5; SysOk 0; SysOk 0]
                              [ReadData state_line]) (-1)))) =
  [EvSys (sys_accept 3) (SysOk 5);
   EvSys (sys_fcntl 5 F_GETFD 0) (SysOk 0);
   EvSys (sys_fcntl 5 F_SETFD 1) (SysOk 0);
   EvStore MSessionSocket 5;
   EvLog LogInfo "Session socket is ready" ArgNone;
   EvRead 5 640 (ReadData state_line);
   EvInput state_line OTBR_ERROR_NONE].
Proof. reflexivity. Qed.

(** C9 as the code has it: nothing is done on an object without a listen
    descriptor; and a connection accepted as descriptor 5, which is in
    neither readiness set, is not read in the invocation that accepts it. *)
Lemma Process_order_witness :
  let s0 := boot (script [] []) ([] : recorder) in
  let s := running (script [SysOk 5; SysOk 0; SysOk 0] [ReadData state_line]) (-1) in
  let c := ready [3] [] in
  mListenSocket (self s0) = -1 /\
  Process linux c s0 = Ret tt s0 /\
  entered c s /\
  mSessionSocket (self (accept_step linux c s)) = 5 /\
  Process linux c s = Ret tt (accept_step linux c s) /\
  read_count (trace (final (Process linux c s))) = 0%nat.
Proof.
  intros s0 s c.
  assert (mListenSocket (self s0) = -1) as H0 by reflexivity.
  assert (entered c s) as H1 by (split; [intros E; discriminate E|reflexivity]).
  destruct (Process_order linux c s0) as [Hu _].
  destruct (Process_order linux c s) as [_ Ho].
  destruct (Ho H1) as (_ & _ & _ & Hidle).
  pose proof (Hidle eq_refl eq_refl) as E.
  repeat match goal with |- _ /\ _ => split end; try assumption.
  - exact (Hu H0).
  - reflexivity.
  - rewrite E. reflexivity.
Defined.

(** * Further properties on concrete inputs *)

(** X19. With the consumer of the base class, whose [InputCommandLine]
    ignores its input and reports success, no run ever has a failed input
    or logs the warning about one, on any kernel. *)
Theorem default_consumer_is_quiet {K : Type} `{!Kernel K} (P : Platform)
    (os : list op) (s : state K unit) :
  exists new,
    trace (final (run_ops P os s)) = trace s ++ new /\
    failed_inputs new = [] /\ input_warnings new = [].
Proof.
  apply quiet_consumer. intros buf []. reflexivity.
Qed.

(** X1 on Linux: the empty name gives the socket path of "wpan0" (26 bytes),
    a name of 87 bytes gives 108 and ends the process. *)
Lemma GetSocketFilename_accepts_witness :
  let s := boot (script [] []) ([] : recorder) in
  (16 + String.length "wpan0" + String.length kSocketSuffix
   <= kMaxSocketFilenameLength linux)%nat /\
  GetSocketFilename linux "" kSocketSuffix s = Ret "/run/openthread-wpan0.sock"%string s /\
  (kMaxSocketFilenameLength linux
   < 16 + String.length long_name + String.length kSocketSuffix)%nat /\
  GetSocketFilename linux long_name kSocketSuffix s
    = Died (ArgError OTBR_ERROR_INVALID_ARGS) s.
Proof.
  intros s.
  assert (16 + String.length "wpan0" + String.length kSocketSuffix
          <= kMaxSocketFilenameLength linux)%nat as H1 by (vm_compute; lia).
  assert (kMaxSocketFilenameLength linux
          < 16 + String.length long_name + String.length kSocketSuffix)%nat as H2
    by (vm_compute; lia).
  destruct (GetSocketFilename_accepts linux "" kSocketSuffix s) as (_ & Hok & _).
  destruct (GetSocketFilename_accepts linux long_name kSocketSuffix s) as (_ & _ & Hko).
  split; [exact H1|]. split; [exact (Hok H1)|]. split; [exact H2|exact (Hko H2)].
Defined.

(** X2 for "wpan0" on a fresh object. *)
Lemma Init_success_calls_witness :
  let s := boot (script init_answers []) ([] : recorder) in
  let s' := final (Init linux "wpan0" s) in
  Init linux "wpan0" s = Ret OTBR_ERROR_NONE s' /\
  syscalls_of (trace s') =
    [SocketWithCloseExec AF_UNIX SOCK_STREAM 0 kSocketNonBlock;
     sys_open "/run/openthread-wpan0.lock" 524352 384;
     sys_flock 4 6;
     sys_unlink "/run/openthread-wpan0.sock";
     sys_bind 3 AF_UNIX "/run/openthread-wpan0.sock";
     sys_listen 3 1].
Proof.
  intros s s'.
  assert (Init linux "wpan0" s = Ret OTBR_ERROR_NONE s') as H by reflexivity.
  split; [exact H|].
  destruct (Init_success_calls linux "wpan0" s s' H) as (_ & _ & _ & Hc & _).
  exact Hc.
Defined.

(** X4 with the lock held elsewhere: the socket 3 stays in the object and
    the next [Init] is rejected. *)
Lemma Init_failure_is_sticky_witness :
  let s := boot (script [SysOk 3; SysOk 4; SysErr 11] []) ([] : recorder) in
  let s' := final (Init linux "wpan0" s) in
  Init linux "wpan0" s = Ret OTBR_ERROR_ERRNO s' /\
  mListenSocket (self s') = 3 /\
  Init linux "wpan0" s' = Ret OTBR_ERROR_INVALID_STATE s'.
Proof.
  intros s s'.
  assert (Init linux "wpan0" s = Ret OTBR_ERROR_ERRNO s') as H by reflexivity.
  split; [exact H|].
  destruct (Init_failure_is_sticky linux "wpan0" s s' H)
    as (r & rest & Ht & Hl & _ & _ & Hrej).
  split; [reflexivity|].
  apply Hrej. rewrite <- Hl. intros E; discriminate E.
Defined.

(** X8 for a connection accepted as descriptor 5 whose flags read 0. *)
Lemma session_is_close_on_exec_witness :
  let s := running (script [SysOk 5; SysOk 0; SysOk 0] []) (-1) in
  let s' := final (InitializeSessionSocket linux s) in
  mSessionSocket (self s') <> -1 /\
  exists new r2 r3,
    trace s' = trace s ++ new /\
    EvSys (sys_fcntl 5 F_GETFD 0) r2 ∈ new /\
    EvSys (sys_fcntl 5 F_SETFD (Z.lor (rv r2) FD_CLOEXEC)) r3 ∈ new.
Proof.
  intros s s'.
  assert (mSessionSocket (self s') <> -1) as H by (intros E; discriminate E).
  split; [exact H|].
  destruct (session_is_close_on_exec linux s H) as (new & r2 & r3 & Ht & H2 & H3 & _).
  exists new, r2, r3. split; [exact Ht|]. split; [exact H2|exact H3].
Defined.

(** X11 on the run with two clients: the one [close] is on descriptor 5,
    which the first [accept] handed out. *)
Lemma closes_only_accepted_witness :
  let tr := trace two_clients_run in
  tr = take 16 tr ++ EvSys (sys_close 5) (SysOk 0) :: drop 17 tr /\
  5 ∈ accepted (resources_of (take 16 tr)).
Proof.
  intros tr.
  assert (tr = take 16 tr ++ EvSys (sys_close 5) (SysOk 0) :: drop 17 tr) as H
    by reflexivity.
  split; [exact H|].
  exact (proj1 (closes_only_accepted linux _ ([] : recorder) _ _ _ 5 (SysOk 0) H)).
Defined.

(** X12 on the run with one line: the [read] is on descriptor 5, the
    session at that moment. *)
Lemma reads_only_from_session_witness :
  let tr := trace one_line_run in
  tr = take 13 tr ++ EvRead 5 640 (ReadData state_line) :: drop 14 tr /\
  5 = session_now (resources_of (take 13 tr)) /\
  5 ∈ accepted (resources_of (take 13 tr)).
Proof.
  intros tr.
  assert (tr = take 13 tr ++ EvRead 5 640 (ReadData state_line) :: drop 14 tr) as H
    by reflexivity.
  split; [exact H|].
  destruct (reads_only_from_session linux _ ([] : recorder) _ _ _ 5 640
              (ReadData state_line) H) as (H1 & _ & H3).
  split; [exact H1|exact H3].
Defined.


(** X17 with session 5 and only foreign descriptors in the sets. *)
Lemma Process_nothing_ready_witness :
  let s := running (script [SysOk 0] [ReadData state_line]) 5 in
  let c := ready [7] [9] in
  (forall fd, fd ∈ mReadFdSet c \/ fd ∈ mErrorFdSet c ->
     ~ ((fd = mListenSocket (self s) /\ mListenSocket (self s) <> -1) \/
        (fd = mSessionSocket (self s) /\ mSessionSocket (self s) <> -1))) /\
  Process linux c s = Ret tt s.
Proof.
  intros s c.
  assert (forall fd, fd ∈ mReadFdSet c \/ fd ∈ mErrorFdSet c ->
     ~ ((fd = mListenSocket (self s) /\ mListenSocket (self s) <> -1) \/
        (fd = mSessionSocket (self s) /\ mSessionSocket (self s) <> -1))) as H.
  { assert (forall fd set, FD_ISSET fd set = false -> fd ∉ set) as Hn
      by (intros fd set E; exact (proj1 (bool_decide_eq_false _) E)).
    intros fd Hin [[-> _]|[-> _]]; destruct Hin as [Hin|Hin]; revert Hin;
      apply Hn; reflexivity. }
  split; [exact H|]. exact (Process_nothing_ready linux c s H).
Defined.

(** X18 with a read on session 5 failing with ECONNRESET (104). *)
Lemma Process_dies_only_witness :
  let s := running (script [] [ReadErr 104]) 5 in
  let s' := final (Process linux (ready [5] []) s) in
  Process linux (ready [5] []) s = Died (ArgErrno 104) s' /\
  last (trace s') = Some (EvRead 5 640 (ReadErr 104)).
Proof.
  intros s s'.
  assert (Process linux (ready [5] []) s = Died (ArgErrno 104) s') as H
    by reflexivity.
  split; [exact H|].
  destruct (Process_dies_only linux (ready [5] []) s s' _ H)
    as (_ & _ & [[E _]|[_ (e & Hl & He)]]).
  - discriminate E.
  - change (104 = e) in He. subst e. exact Hl.
Defined.
